(** * py2toml: the setup.py to pyproject.toml converter

    A shallow embedding of [py2toml.py] and the properties of its
    extractor, author/email merger, renderer and entry point.

    Conventions of the embedding.
    - A Python [str] is a Rocq [string]; a character is a code point below
      256.  [bytes], [float] and [complex] literals are outside the model.
    - A Python exception is a value of [exn]; code that can raise returns a
      [result], and code that also prints or touches files runs in the
      monad [M] over a [world].
    - [print] is the built-in one: it appends to the journal and never
      raises.  Every message is kept as its format (one constructor per
      [print] call of the source) together with the values it formats.
    - A file is its decoded text; reading a path that has no file raises,
      writing succeeds.  [ast.parse] is a parameter of the program.
    - [os.path] is [posixpath]. *)

From Stdlib Require Import ZArith Ascii String List Lia Bool.
From stdpp Require Import base option list strings gmap pretty.

Local Open Scope string_scope.
Local Open Scope Z_scope.

(** ** Python string methods *)

Module Str.

(** [c.isspace()] on a code point below 256. *)
Definition isspace (c : ascii) : bool :=
  let n := N_of_ascii c in
  ((9 <=? n) && (n <=? 13) || (28 <=? n) && (n <=? 32)
   || (n =? 133) || (n =? 160))%N.

Fixpoint lstrip (s : string) : string :=
  match s with
  | String c s' => if isspace c then lstrip s' else s
  | EmptyString => EmptyString
  end.

Fixpoint rstrip (s : string) : string :=
  match s with
  | EmptyString => EmptyString
  | String c s' =>
      match rstrip s' with
      | EmptyString => if isspace c then EmptyString else String c EmptyString
      | r => String c r
      end
  end.

(** [s.strip()] *)
Definition strip (s : string) : string := rstrip (lstrip s).

(** [s.split(sep)] for a separator of one character: the segments between
    the separators, empty ones included; never an empty list. *)
Fixpoint split (sep : ascii) (s : string) : list string :=
  match s with
  | EmptyString => [EmptyString]
  | String c s' =>
      if Ascii.eqb c sep then EmptyString :: split sep s'
      else match split sep s' with
           | w :: ws => String c w :: ws
           | [] => [String c EmptyString]
           end
  end.

(** The word being read at the head of [s] and the words after it. *)
Fixpoint split_ws_go (s : string) : string * list string :=
  match s with
  | EmptyString => (EmptyString, [])
  | String c s' =>
      let '(w, ws) := split_ws_go s' in
      if isspace c
      then (EmptyString, match w with EmptyString => ws | _ => w :: ws end)
      else (String c w, ws)
  end.

(** [s.split()]: the maximal runs of non-space characters. *)
Definition split_ws (s : string) : list string :=
  let '(w, ws) := split_ws_go s in
  match w with EmptyString => ws | _ => w :: ws end.

(** [sep.join(l)] *)
Fixpoint join (sep : string) (l : list string) : string :=
  match l with
  | [] => EmptyString
  | [x] => x
  | x :: l' => x ++ sep ++ join sep l'
  end.

(** [s.startswith(p)] *)
Fixpoint startswith (p s : string) : bool :=
  match p, s with
  | EmptyString, _ => true
  | String a p', String b s' => Ascii.eqb a b && startswith p' s'
  | String _ _, EmptyString => false
  end.

(** The scan of [s.replace(old, new)] for a non-empty [old]: [skip] is the
    number of characters of a match still to be passed over. *)
Fixpoint replace_go (old new : string) (skip : nat) (s : string) : string :=
  match s with
  | EmptyString => EmptyString
  | String c s' =>
      match skip with
      | S k => replace_go old new k s'
      | O =>
          if startswith old s
          then new ++ replace_go old new (Nat.pred (String.length old)) s'
          else String c (replace_go old new O s')
      end
  end.

(** [new] before every character and at the end: what [replace] does
    with an empty [old]. *)
Fixpoint intersperse (new s : string) : string :=
  match s with
  | EmptyString => new
  | String c s' => new ++ String c (intersperse new s')
  end.

(** [s.replace(old, new)]: every occurrence, found from the left, none
    overlapping another; the result is not scanned again. *)
Definition replace (old new s : string) : string :=
  match old with
  | EmptyString => intersperse new s
  | _ => replace_go old new O s
  end.

(** [s.rfind(c)] for one character: the last index of [c], or [-1]. *)
Fixpoint rfind_go (c : ascii) (s : string) (i last : Z) : Z :=
  match s with
  | EmptyString => last
  | String a s' => rfind_go c s' (i + 1) (if Ascii.eqb a c then i else last)
  end.

Definition rfind (c : ascii) (s : string) : Z := rfind_go c s 0 (-1).

(** [s[i:]] and [s[:i]] for [0 <= i]. *)
Definition from (i : Z) (s : string) : string :=
  String.substring (Z.to_nat i) (String.length s - Z.to_nat i) s.

Definition upto (i : Z) (s : string) : string :=
  String.substring 0 (Z.to_nat i) s.

(** [s[i:i+1]] for [0 <= i] *)
Definition at_ (i : Z) (s : string) : string :=
  String.substring (Z.to_nat i) 1 s.

(** The characters of [s], each as a string: what iterating a [str]
    yields. *)
Fixpoint chars (s : string) : list string :=
  match s with
  | EmptyString => []
  | String c s' => String c EmptyString :: chars s'
  end.

(** [needle in s] *)
Fixpoint contains (needle s : string) : bool :=
  startswith needle s ||
  match s with
  | EmptyString => false
  | String _ s' => contains needle s'
  end.

End Str.

(** ** Exceptions and results *)

Inductive exn : Type :=
| AttributeError (name : string)     (* the attribute that is missing *)
| TypeError
| KeyError (key : string)
| UnboundLocalError (var : string)
| FileNotFoundError (path : string)
| SyntaxError
| SystemExit (code : Z).

Inductive result (A : Type) : Type :=
| Ok (a : A)
| Raise (e : exn).
Arguments Ok {A} a.
Arguments Raise {A} e.

Global Instance result_ret : MRet result := @Ok.
Global Instance result_bind : MBind result := λ A B f r,
  match r with
  | Ok a => f a
  | Raise e => Raise e
  end.

(** [try: body  except AttributeError: handler] *)
Definition try_except_AttributeError {A} (body handler : result A) : result A :=
  match body with
  | Raise (AttributeError _) => handler
  | r => r
  end.

(** [for x in xs: acc.append(f(x))], stopping at the first exception. *)
Fixpoint for_each {A B} (f : A → result B) (xs : list A) : result (list B) :=
  match xs with
  | [] => Ok []
  | x :: xs' => y ← f x; ys ← for_each f xs'; Ok (y :: ys)
  end.

(** ** The syntax tree of the [ast] module *)

(** The value of an [ast.Constant]. *)
Inductive constant : Type :=
| CStr (s : string)
| CInt (z : Z)
| CBool (b : bool)
| CNone
| CEllipsis.

(** A field of a node that holds one node or a list of nodes. *)
Inductive field_of (N : Type) : Type :=
| One (n : N)
| Many (ns : list N).
Arguments One {N} n.
Arguments Many {N} ns.

Local Set Warnings "-register-all".

(** The node classes the program tells apart, with the fields it reads, and
    [Other] for every remaining class ([Module], [Expr], [Assign], [BinOp],
    [Subscript], ...) with its node-valued fields in [_fields] order.  The
    [ctx] field ([Load], [Store]) of names, attributes, lists and tuples is
    left out: such a node has no fields and is not a call. *)
Inductive node : Type :=
| Constant (value : constant)
| Name (id : string)
| Attribute (value : node) (attr : string)
| List (elts : list node)
| Tuple (elts : list node)
| Call (func : node) (args : list node) (keywords : list node)
| keyword (arg : option string) (value : node)
| Other (cls : string) (fields : list (string * field_of node)).

Definition Module (body : list node) : node := Other "Module" [("body", Many body)].
Definition Expr (value : node) : node := Other "Expr" [("value", One value)].
Definition Subscript (value slice : node) : node :=
  Other "Subscript" [("value", One value); ("slice", One slice)].

Definition field_nodes (f : field_of node) : list node :=
  match f with
  | One n => [n]
  | Many ns => ns
  end.

(** [ast.iter_child_nodes(n)] *)
Definition iter_child_nodes (n : node) : list node :=
  match n with
  | Constant _ | Name _ => []
  | Attribute v _ => [v]
  | List es | Tuple es => es
  | Call f a k => f :: a ++ k
  | keyword _ v => [v]
  | Other _ fs => flat_map (λ nf, field_nodes nf.2) fs
  end.

(** The number of nodes of a tree. *)
Fixpoint size (n : node) : nat :=
  let sizes := fix sizes (l : list node) : nat :=
    match l with
    | [] => O
    | x :: l' => (size x + sizes l')%nat
    end in
  match n with
  | Constant _ | Name _ => 1%nat
  | Attribute v _ => S (size v)
  | List es | Tuple es => S (sizes es)
  | Call f a k => S (size f + sizes a + sizes k)
  | keyword _ v => S (size v)
  | Other _ fs =>
      S ((fix go (l : list (string * field_of node)) : nat :=
            match l with
            | [] => O
            | (_, One x) :: l' => (size x + go l')%nat
            | (_, Many xs) :: l' => (sizes xs + go l')%nat
            end) fs)
  end.

Definition sizes (l : list node) : nat := list_sum (map size l).

(** The loop of [ast.walk]: pop the queue's head, append its children,
    yield it.  [fuel] bounds the number of iterations. *)
Fixpoint walk_go (fuel : nat) (todo : list node) : list node :=
  match fuel, todo with
  | S fuel', n :: rest => n :: walk_go fuel' (rest ++ iter_child_nodes n)
  | _, _ => []
  end.

(** [ast.walk(tree)]: every node of the tree, breadth first.  One node is
    yielded per iteration, so [size tree] iterations empty the queue
    ([walk_spec]). *)
Definition walk (tree : node) : list node := walk_go (size tree) [tree].

(** ** Python objects the program handles *)

(** What an attribute read such as [keyword.value.value] can give. *)
Inductive obj : Type :=
| OConst (c : constant)
| ONode (n : node)
| ONodes (ns : list node)
| OStrs (l : list string).

(** [n.value] *)
Definition get_value (n : node) : result obj :=
  match n with
  | Constant c => Ok (OConst c)
  | Attribute v _ | keyword _ v => Ok (ONode v)
  | Other _ fs =>
      match list_find (λ nf, nf.1 = "value") fs with
      | Some (_, (_, One v)) => Ok (ONode v)
      | Some (_, (_, Many vs)) => Ok (ONodes vs)
      | None => Raise (AttributeError "value")
      end
  | _ => Raise (AttributeError "value")
  end.

(** [n.id] and [n.attr] *)
Definition get_id (n : node) : result string :=
  match n with
  | Name id => Ok id
  | _ => Raise (AttributeError "id")
  end.

Definition get_attr (n : node) : result string :=
  match n with
  | Attribute _ attr => Ok attr
  | _ => Raise (AttributeError "attr")
  end.

(** [o.split(",")] *)
Definition obj_split (sep : ascii) (o : obj) : result (list string) :=
  match o with
  | OConst (CStr s) => Ok (Str.split sep s)
  | _ => Raise (AttributeError "split")
  end.

(** [o.strip()] *)
Definition obj_strip (o : obj) : result string :=
  match o with
  | OConst (CStr s) => Ok (Str.strip s)
  | _ => Raise (AttributeError "strip")
  end.

(** [[k.strip() for k in o]]: a [str] gives its characters, a scalar or a
    node is not iterable, the items of a list of nodes have no [strip]. *)
Definition obj_strip_each (o : obj) : result (list string) :=
  match o with
  | OStrs l => Ok (map Str.strip l)
  | OConst (CStr s) => Ok (map Str.strip (Str.chars s))
  | OConst _ | ONode _ => Raise TypeError
  | ONodes ns => for_each (λ n, obj_strip (ONode n)) ns
  end.

(** A value of the metadata mapping: a constant ([str] or scalar) or a list
    of strings. *)
Inductive pyval : Type :=
| VConst (c : constant)
| VList (l : list string).

Definition VStr (s : string) : pyval := VConst (CStr s).

(** [bool(v)] *)
Definition truthy (v : pyval) : bool :=
  match v with
  | VConst (CStr s) => negb (String.eqb s "")
  | VConst (CInt z) => negb (z =? 0)
  | VConst (CBool b) => b
  | VConst CNone => false
  | VConst CEllipsis => true
  | VList l => match l with [] => false | _ => true end
  end.

(** [len(v)] *)
Definition py_len (v : pyval) : result nat :=
  match v with
  | VList l => Ok (length l)
  | VConst (CStr s) => Ok (String.length s)
  | VConst _ => Raise TypeError
  end.

(** The items [for x in v] goes through. *)
Definition py_iter (v : pyval) : result (list string) :=
  match v with
  | VList l => Ok l
  | VConst (CStr s) => Ok (Str.chars s)
  | VConst _ => Raise TypeError
  end.

(** ** Printing values *)

Definition hex_digit (n : N) : ascii :=
  ascii_of_N (if (n <? 10)%N then 48 + n else 87 + n)%N.

(** The escape [\xNN] of a code point below 256. *)
Definition hex_escape (c : ascii) : string :=
  let n := N_of_ascii c in
  String "\" (String "x" (String (hex_digit (n / 16)) (String (hex_digit (n mod 16)) ""))).

(** [c.isprintable()] on a code point below 256. *)
Definition isprintable (c : ascii) : bool :=
  let n := N_of_ascii c in
  ((32 <=? n) && (n <? 127) || (161 <=? n) && negb (n =? 173))%N.

(** The double quote, as a character and as a string. *)
Definition dquote : ascii := "034".
Definition DQ : string := String dquote "".

Definition repr_char (quote c : ascii) : string :=
  if Ascii.eqb c quote || Ascii.eqb c "\" then String "\" (String c "")
  else if Ascii.eqb c "009" then "\t"
  else if Ascii.eqb c "010" then "\n"
  else if Ascii.eqb c "013" then "\r"
  else if isprintable c then String c ""
  else hex_escape c.

Fixpoint repr_body (quote : ascii) (s : string) : string :=
  match s with
  | EmptyString => EmptyString
  | String c s' => repr_char quote c ++ repr_body quote s'
  end.

(** [repr(s)] of a [str]: single quotes, unless [s] has a single quote and
    no double quote. *)
Definition repr_str (s : string) : string :=
  let quote : ascii :=
    if Str.contains "'" s && negb (Str.contains DQ s)
    then dquote else "'"%char in
  String quote (repr_body quote s ++ String quote "").

Definition str_constant (c : constant) : string :=
  match c with
  | CStr s => s
  | CInt z => pretty z
  | CBool true => "True"
  | CBool false => "False"
  | CNone => "None"
  | CEllipsis => "Ellipsis"
  end.

(** [str(v)], which is what an f-string field gives. *)
Definition py_str (v : pyval) : string :=
  match v with
  | VConst c => str_constant c
  | VList l => "[" ++ Str.join ", " (map repr_str l) ++ "]"
  end.

(** ** The world: printed messages and files *)

(** One constructor per [print] call of the source, with the values the
    message formats. *)
Inductive message : Type :=
| NotAKeyword (arg : option string)
    (* Error: Keyword '{arg}' is not an instance of ast.keyword *)
| AddingList (arg : string) (value : list string)
    (* Adding to '{arg}' the list '{value}' *)
| AddingConstant (arg : string) (value : constant)
    (* Adding to '{arg}' the constant '{value}' *)
| AddingName (arg : string) (id : string)
    (* Adding to '{arg}' the name '{id}' *)
| AuthorsMismatch
    (* Error: The number of authors does not match the number of author emails. *)
| MetadataIs (metadata : gmap string pyval)
    (* Metadata: {metadata} *)
| SetupNotFound
    (* Error: Could not find the setup function in the AST. *)
| Usage
    (* Usage: python script.py <path_to_setup_py> <path_to_output_pyproject_toml> *)
| ConversionComplete (path : string).
    (* Conversion complete. Pyproject.toml saved to {path} *)

(** What the process does to its surroundings, in order. *)
Inductive event : Type :=
| Printed (m : message)
| OpenedForReading (path : string)
| OpenedForWriting (path : string).

Record world : Type := World {
  files : gmap string string;     (* path to text *)
  journal : list event;
}.

Definition log (e : event) (w : world) : world :=
  World (files w) (journal w ++ [e]).

(** A computation that may raise, print and use files. *)
Definition M (A : Type) : Type := world → result A * world.

Global Instance M_ret : MRet M := λ A a w, (Ok a, w).
Global Instance M_bind : MBind M := λ A B f m w,
  match m w with
  | (Ok a, w') => f a w'
  | (Raise e, w') => (Raise e, w')
  end.

Definition raise {A} (e : exn) : M A := λ w, (Raise e, w).

Definition lift {A} (r : result A) : M A := λ w, (r, w).

Definition print (m : message) : M unit := λ w, (Ok tt, log (Printed m) w).

(** [with open(path, "r", encoding="utf-8") as file: file.read()] *)
Definition read_file (path : string) : M string := λ w,
  let w' := log (OpenedForReading path) w in
  match files w !! path with
  | Some text => (Ok text, w')
  | None => (Raise (FileNotFoundError path), w')
  end.

(** ** The program *)

(** Line 13: the first call, in the order of [ast.walk], whose callee's
    [id], or else [attr], is "setup". *)
Fixpoint find_setup_in (nodes : list node) : result (option node) :=
  match nodes with
  | [] => Ok None
  | node :: rest =>
      match node with
      | Call func _ _ =>
          found ← try_except_AttributeError
                     (id ← get_id func; Ok (String.eqb id "setup"))
                     (attr ← get_attr func; Ok (String.eqb attr "setup"));
          if found : bool then Ok (Some node) else find_setup_in rest
      | _ => find_setup_in rest
      end
  end.

Definition find_setup_function (tree : node) : result (option node) :=
  find_setup_in (walk tree).

(** The state of the loop of lines 28 to 60: the mapping, and the local
    variable [value], which is unbound until a branch assigns it. *)
Record loop_state : Type := LoopState {
  metadata : gmap string pyval;
  value_var : option pyval;
}.

(** Lines 32 to 58: the [elif] chain for a keyword named [arg] with value
    node [v]; the result is the variable [value] afterwards. *)
Definition classify (arg : string) (v : node) (value : option pyval) : M (option pyval) :=
  if String.eqb arg "author" || String.eqb arg "author_email" then
    o ← lift (get_value v);
    parts ← lift (obj_split "," o);
    let value := map Str.strip parts in
    _ ← print (AddingList arg value);
    mret (Some (VList value))
  else if String.eqb arg "keywords" then
    o ← lift (get_value v);
    keywords ← match o with
               | OConst (CStr s) =>
                   let keywords := Str.split "," s in
                   let keywords :=
                     if (length keywords =? 1)%nat then Str.split_ws s else keywords in
                   mret (OStrs (map Str.strip keywords))
               | _ => mret o
               end;
    value ← lift (obj_strip_each keywords);
    _ ← print (AddingList arg value);
    mret (Some (VList value))
  else
    match v with
    | Constant c =>
        _ ← print (AddingConstant arg c);
        match c with
        | CStr s => mret (Some (VStr (Str.join " " (Str.split_ws s))))
        | _ => mret (Some (VConst c))
        end
    | List elts | Tuple elts =>
        value ← lift (for_each (λ elt, o ← get_value elt; obj_strip o) elts);
        _ ← print (AddingList arg value);
        mret (Some (VList value))
    | Name id =>
        _ ← print (AddingName arg id);
        mret (Some (VStr id))
    | _ => mret value
    end.

(** Lines 29 to 60: one iteration. *)
Definition loop_body (kw : node) (st : loop_state) : M loop_state :=
  match kw with
  | keyword None _ =>
      _ ← print (NotAKeyword None);
      mret st
  | keyword (Some arg) v =>
      value ← classify arg v (value_var st);
      match value with
      | Some x => mret (LoopState (<[arg := x]> (metadata st)) value)
      | None => raise (UnboundLocalError "value")
      end
  | _ => raise (AttributeError "arg")
  end.

Fixpoint loop (kws : list node) (st : loop_state) : M loop_state :=
  match kws with
  | [] => mret st
  | kw :: rest => st' ← loop_body kw st; loop rest st'
  end.

Definition pair_up (author email : string) : string :=
  author ++ " <" ++ email ++ ">".

(** Lines 62 to 73: the author/email merger. *)
Definition merge_authors (metadata : gmap string pyval) : M (gmap string pyval) :=
  match metadata !! "author_email" with
  | Some emails =>
      match metadata !! "author" with
      | None => raise (KeyError "author")
      | Some authors =>
          n ← lift (py_len authors);
          m ← lift (py_len emails);
          if negb (n =? m)%nat then
            _ ← print AuthorsMismatch;
            mret metadata
          else
            names ← lift (py_iter authors);
            mails ← lift (py_iter emails);
            mret (<["author" := VList (zip_with pair_up names mails)]> metadata)
      end
  | None => mret metadata
  end.

(** Line 26.  [setup_node.keywords] exists because the caller passes a
    call node. *)
Definition extract_metadata_from_setup (setup_node : node) : M (gmap string pyval) :=
  match setup_node with
  | Call _ _ keywords =>
      st ← loop keywords (LoopState ∅ None);
      metadata ← merge_authors (metadata st);
      _ ← print (MetadataIs metadata);
      mret metadata
  | _ => raise (AttributeError "keywords")
  end.

(** *** [os.path] *)

(** [posixpath.basename(p)] *)
Definition basename (p : string) : string :=
  let i := Str.rfind "/" p + 1 in
  Str.from i p.

(** The [while] loop of [genericpath._splitext]: is there a character other
    than a dot in [p[filenameIndex:dotIndex]]?  [n] counts the indices
    left. *)
Fixpoint has_non_dot (p : string) (n : nat) (filenameIndex : Z) : bool :=
  match n with
  | O => false
  | S n' =>
      if negb (String.eqb (Str.at_ filenameIndex p) ".") then true
      else has_non_dot p n' (filenameIndex + 1)
  end.

(** [posixpath.splitext(p)] *)
Definition splitext (p : string) : string * string :=
  let sepIndex := Str.rfind "/" p in
  let dotIndex := Str.rfind "." p in
  if (sepIndex <? dotIndex)
     && has_non_dot p (Z.to_nat (dotIndex - (sepIndex + 1))) (sepIndex + 1)
  then (Str.upto dotIndex p, Str.from dotIndex p)
  else (p, "").

(** *** The renderer *)

Definition NL : string := String "010" "".

(** [metadata.get(key, default)] *)
Definition get (metadata : gmap string pyval) (key : string) (default : pyval) : pyval :=
  match metadata !! key with
  | Some v => v
  | None => default
  end.

(** Line 128 *)
Definition generate_dependency_section (install_requires : pyval) : result string :=
  reqs ← py_iter install_requires;
  Ok (Str.join NL (map (λ req, req ++ " = " ++ DQ ++ "*" ++ DQ) reqs)).

(** The line of one script (line 134). *)
Definition script_line (script : string) : string :=
  (splitext (basename script)).1 ++ " = " ++ DQ ++ script ++ ".__main__:main" ++ DQ.

(** Line 132 *)
Definition scripts_section (scripts : pyval) : result string :=
  entries ← py_iter scripts;
  Ok (Str.join NL (map script_line entries)).

(** Lines 98 to 100: the text that stands for the classifiers. *)
Definition render_classifiers (metadata : gmap string pyval) : result pyval :=
  let classifiers := get metadata "classifiers" (VList []) in
  if truthy classifiers then
    items ← py_iter classifiers;
    Ok (VStr ("[" ++ NL
              ++ Str.join NL (map (λ cls, "    " ++ DQ ++ cls ++ DQ ++ ",") items)
              ++ NL ++ "]"))
  else Ok classifiers.

(** Lines 102 to 123: the f-string, before the blank lines are collapsed. *)
Definition fill_template (metadata : gmap string pyval) : result string :=
  classifiers ← render_classifiers metadata;
  let field key default := py_str (get metadata key default) in
  dependencies ← generate_dependency_section (get metadata "install_requires" (VList []));
  scripts ← scripts_section (get metadata "scripts" (VList []));
  Ok (String.concat "" [
    "[tool.poetry]"; NL;
    "name = "; DQ; field "name" (VStr ""); DQ; NL;
    "version = "; DQ; field "version" (VStr ""); DQ; NL;
    "description = "; DQ; field "description" (VStr ""); DQ; NL;
    "license = "; DQ; field "license" (VStr ""); DQ; NL;
    "authors = "; field "author" (VStr "[]"); NL;
    "readme = "; DQ; "README.md"; DQ; NL;
    "repository = "; DQ; field "url" (VStr ""); DQ; NL;
    "keywords = "; field "keywords" (VStr "[]"); NL;
    "classifiers = "; py_str classifiers; NL;
    NL;
    "[tool.poetry.dependencies]"; NL;
    "python = "; DQ; field "python_requires" (VStr ">=3.5"); DQ; NL;
    dependencies; NL;
    NL;
    "[tool.poetry.scripts]"; NL;
    scripts; NL;
    NL;
    "[build-system]"; NL;
    "requires = ["; DQ; "poetry-core"; DQ; "]"; NL;
    "build-backend = "; DQ; "poetry.core.masonry.api"; DQ; NL ]).

(** Line 97 *)
Definition generate_pyproject_toml (metadata : gmap string pyval) : result string :=
  pyproject_toml ← fill_template metadata;
  Ok (Str.replace (NL ++ NL ++ NL) (NL ++ NL) pyproject_toml).

(** *** Files and the entry point *)

(** Line 139: [open(file_path, "w")] creates or truncates the file. *)
Definition write_to_file (content file_path : string) : M unit := λ w,
  (Ok tt, World (<[file_path := content]> (files w))
                (journal w ++ [OpenedForWriting file_path])).

Section Program.

(** [ast.parse]: the tree of a source text, or [SyntaxError]. *)
Variable ast_parse : string → result node.

(** Line 80.  A node is an object without [__bool__] or [__len__], so
    [if setup_node:] asks whether it is [None]. *)
Definition parse_setup_py (file_path : string) : M (gmap string pyval) :=
  setup_content ← read_file file_path;
  setup_info ← lift (ast_parse setup_content);
  setup_node ← lift (find_setup_function setup_info);
  match setup_node with
  | Some setup_node => extract_metadata_from_setup setup_node
  | None =>
      _ ← print SetupNotFound;
      mret ∅
  end.

(** Line 144, on [sys.argv]: three items are the program's name and the
    two paths; every other length takes the [if] of line 145. *)
Definition main (argv : list string) : M unit :=
  match argv with
  | [_; setup_file_path; pyproject_toml_path] =>
      metadata ← parse_setup_py setup_file_path;
      pyproject_toml_content ← lift (generate_pyproject_toml metadata);
      _ ← write_to_file pyproject_toml_content pyproject_toml_path;
      print (ConversionComplete pyproject_toml_path)
  | _ =>
      _ ← print Usage;
      raise (SystemExit 1)
  end.

End Program.

(** The status the process ends with: 0 when [main] returns, the code of a
    [SystemExit], 1 after any other exception. *)
Definition exit_status (r : result unit) : Z :=
  match r with
  | Ok _ => 0
  | Raise (SystemExit code) => code
  | Raise _ => 1
  end.

(** * Vocabulary of the properties *)

(** ** Keywords of a call *)

(** The value node of the last keyword named [name]: the one whose
    assignment to [metadata[name]] is not overwritten. *)
Fixpoint last_keyword (name : string) (kws : list node) : option node :=
  match kws with
  | [] => None
  | kw :: rest =>
      match last_keyword name rest with
      | Some v => Some v
      | None =>
          match kw with
          | keyword (Some arg) v => if String.eqb arg name then Some v else None
          | _ => None
          end
      end
  end.

(** The entry of [keywords] that lines 36 to 44 compute for a string. *)
Definition keywords_of (s : string) : list string :=
  let keywords := Str.split "," s in
  let keywords := if (length keywords =? 1)%nat then Str.split_ws s else keywords in
  map Str.strip (map Str.strip keywords).

(** The keyword names with a rule of their own (lines 32 and 35). *)
Definition named_rule (arg : string) : bool :=
  String.eqb arg "author" || String.eqb arg "author_email" || String.eqb arg "keywords".

(** The value shapes no branch of lines 45 to 58 takes. *)
Definition unrecognized (v : node) : bool :=
  match v with
  | Constant _ | List _ | Tuple _ | Name _ => false
  | _ => true
  end.

(** ** Nodes of a tree *)

(** [n] is [t] or a node below it. *)
Inductive subnode (n : node) : node → Prop :=
| subnode_refl : subnode n n
| subnode_step c t : In c (iter_child_nodes t) → subnode n c → subnode n t.

(** A call whose callee is the name [setup] or an attribute [setup]. *)
Definition calls_setup (n : node) : bool :=
  match n with
  | Call (Name id) _ _ => String.eqb id "setup"
  | Call (Attribute _ attr) _ _ => String.eqb attr "setup"
  | _ => false
  end.

(** A node that is not a call, or a call whose callee is a name or an
    attribute other than [setup]. *)
Definition plain_callee (n : node) : Prop :=
  match n with
  | Call (Name id) _ _ => id ≠ "setup"
  | Call (Attribute _ attr) _ _ => attr ≠ "setup"
  | Call _ _ _ => False
  | _ => True
  end.

(** ** Texts *)

(** [line] stands in [block] between line breaks or the ends of the
    text. *)
Definition is_line_of (line block : string) : Prop :=
  ∃ before after,
    block = before ++ line ++ after
    ∧ (before = "" ∨ ∃ b, before = b ++ NL)
    ∧ (after = "" ∨ ∃ a, after = NL ++ a).

(** One pass over a text from the left: where [old] begins, it is rewritten
    into [new] and the pass goes on after it; elsewhere one character is
    kept.  What has been written is not read again. *)
Inductive replaced_once (old new : string) : string → string → Prop :=
| replaced_end : replaced_once old new "" ""
| replaced_here rest r :
    replaced_once old new rest r →
    replaced_once old new (old ++ rest) (new ++ r)
| replaced_keep c s r :
    Str.startswith old (String c s) = false →
    replaced_once old new s r →
    replaced_once old new (String c s) (String c r).


(** ** Inputs of the examples *)

(** The keywords of [setup(author="Alice, Bob", author_email="a@x.com")]. *)
Definition setup_mismatch : list node :=
  [keyword (Some "author") (Constant (CStr "Alice, Bob"));
   keyword (Some "author_email") (Constant (CStr "a@x.com"))].

(** The keywords of
    [setup(author="Alice, Bob", author_email="a@x.com, b@y.com")]. *)
Definition setup_matching : list node :=
  [keyword (Some "author") (Constant (CStr "Alice, Bob"));
   keyword (Some "author_email") (Constant (CStr "a@x.com, b@y.com"))].

(** The expression [get_version()]. *)
Definition get_version_call : node := Call (Name "get_version") [] [].

(** The call [setup(name="x", version=get_version())]. *)
Definition setup_stale : node :=
  Call (Name "setup") []
    [keyword (Some "name") (Constant (CStr "x")); keyword (Some "version") get_version_call].

(** The call [setup(version=get_version())]. *)
Definition setup_unbound : node :=
  Call (Name "setup") [] [keyword (Some "version") get_version_call].

(** The call [setup(classifiers=["a\n\n\n\nb"])]: one classifier with a
    run of four line breaks inside. *)
Definition setup_blank_run : node :=
  Call (Name "setup") []
    [keyword (Some "classifiers")
       (List [Constant (CStr ("a" ++ NL ++ NL ++ NL ++ NL ++ "b"))])].

(** The tree of the source text [f()()]: the callee of the outer call is
    itself a call. *)
Definition call_of_call : node :=
  Module [Expr (Call (Call (Name "f") [] []) [] [])].

(** A parser that knows that one text. *)
Definition parse_call_of_call (text : string) : result node :=
  if String.eqb text "f()()" then Ok call_of_call else Raise SyntaxError.

(** A parser for which every text is an empty module. *)
Definition parse_nothing (text : string) : result node := Ok (Module []).

(** A world with an empty [setup.py] and nothing printed. *)
Definition one_file : world := World {[ "setup.py" := "" ]} [].

(** ** Vocabulary of the further properties *)

(** A node that is not a call, or a call whose callee is a name or an
    attribute: the callees lines 17 and 19 can read. *)
Definition simple_callee (n : node) : Prop :=
  match n with
  | Call (Name _) _ _ | Call (Attribute _ _) _ _ => True
  | Call _ _ _ => False
  | _ => True
  end.



(** The source [print("hello")] followed by
    [setuptools.setup(name="x")]. *)
Definition setup_module : node :=
  Module [Expr (Call (Name "print") [Constant (CStr "hello")] []);
          Expr (Call (Attribute (Name "setuptools") "setup") []
                  [keyword (Some "name") (Constant (CStr "x"))])].

(** A computation that only prints: in every world it gives the same
    result and appends the same messages to the journal, and it leaves the
    files alone. *)
Definition prints_only {A} (m : M A) : Prop :=
  ∃ r msgs, ∀ w, m w = (r, World (files w) (journal w ++ map Printed msgs)).

(** The trimmed strings of a list of string literals. *)
Fixpoint string_items (elts : list node) : option (list string) :=
  match elts with
  | [] => Some []
  | Constant (CStr s) :: rest => cons (Str.strip s) <$> string_items rest
  | _ => None
  end.

(** The entry the rules for a constant, a list or tuple of string
    literals, and a bare name give (lines 45 to 58). *)
Definition literal_value (v : node) : option pyval :=
  match v with
  | Constant (CStr s) => Some (VStr (Str.join " " (Str.split_ws s)))
  | Constant c => Some (VConst c)
  | List elts | Tuple elts => VList <$> string_items elts
  | Name id => Some (VStr id)
  | _ => None
  end.

(** The keywords that have a name: [**mapping] arguments left out. *)
Definition drop_unnamed (kws : list node) : list node :=
  List.filter (λ kw, match kw with keyword None _ => false | _ => true end) kws.

(** What a [for] loop can go through: a list or a string. *)
Definition iterable (v : pyval) : bool :=
  match v with
  | VList _ | VConst (CStr _) => true
  | VConst _ => false
  end.

(** The three fields the renderer iterates, with their defaults: a truthy
    [classifiers], [install_requires] and [scripts] are all iterable. *)
Definition renderable (metadata : gmap string pyval) : bool :=
  (negb (truthy (get metadata "classifiers" (VList [])))
   || iterable (get metadata "classifiers" (VList [])))
  && iterable (get metadata "install_requires" (VList []))
  && iterable (get metadata "scripts" (VList [])).

(** The keywords of [setup(description="old", zip_safe=False,
    description=...)], the second description being " A  tool", a line
    break and "for x ". *)
Definition twice_described : list node :=
  [keyword (Some "description") (Constant (CStr "old"));
   keyword (Some "zip_safe") (Constant (CBool false));
   keyword (Some "description") (Constant (CStr (" A  tool" ++ NL ++ "for x ")))].

(** * Properties *)

(** ** The string and path functions on examples *)

Example strip_ex : Str.strip "  Alice " = "Alice".
Proof. reflexivity. Qed.

Example split_ex : Str.split "," "a, b,,c" = ["a"; " b"; ""; "c"].
Proof. reflexivity. Qed.

Example split_ws_ex : Str.split_ws "  a b
 c " = ["a"; "b"; "c"].
Proof. reflexivity. Qed.

Example replace_ex : Str.replace "aa" "b" "aaaaa" = "bba".
Proof. reflexivity. Qed.

Example rfind_ex : Str.rfind "/" "a/b/c" = 3 /\ Str.rfind "/" "abc" = -1.
Proof. split; reflexivity. Qed.

Example py_str_list :
  py_str (VList ["Alice <a@x.com>"; "it's"]) = "['Alice <a@x.com>', " ++ DQ ++ "it's" ++ DQ ++ "]".
Proof. vm_compute. reflexivity. Qed.

Example py_str_int : py_str (VConst (CInt (-42))) = "-42".
Proof. vm_compute. reflexivity. Qed.

Example basename_ex : basename "bin/mytool.py" = "mytool.py" ∧ basename "mytool" = "mytool".
Proof. split; reflexivity. Qed.

Example splitext_ex :
  splitext "mytool.py" = ("mytool", ".py") ∧ splitext ".bashrc" = (".bashrc", "")
  ∧ splitext "a.b/c" = ("a.b/c", "") ∧ splitext "x.tar.gz" = ("x.tar", ".gz").
Proof. repeat split; reflexivity. Qed.

(** ** The monad *)

Lemma bind_Ok {A B} (m : M A) (f : A → M B) w a w' :
  m w = (Ok a, w') → (m ≫= f) w = f a w'.
Proof. intros H. unfold mbind, M_bind. by rewrite H. Qed.

Lemma bind_Raise {A B} (m : M A) (f : A → M B) w e w' :
  m w = (Raise e, w') → (m ≫= f) w = (Raise e, w').
Proof. intros H. unfold mbind, M_bind. by rewrite H. Qed.

(** A bind that returns has a first part that returns. *)
Lemma bind_inv {A B} (m : M A) (f : A → M B) w b w'' :
  (m ≫= f) w = (Ok b, w'') → ∃ a w', m w = (Ok a, w') ∧ f a w' = (Ok b, w'').
Proof.
  unfold mbind, M_bind. destruct (m w) as [[a|e] w'] eqn:E; [eauto | discriminate].
Qed.

Tactic Notation "run" :=
  cbv [mbind M_bind mret M_ret lift print raise result_bind result_ret].
Tactic Notation "run" "in" hyp(H) :=
  cbv [mbind M_bind mret M_ret lift print raise result_bind result_ret] in H.

(** ** The loop over the keyword arguments *)

Lemma last_keyword_None name kws :
  last_keyword name kws = None ↔ ∀ v, ¬ In (keyword (Some name) v) kws.
Proof.
  induction kws as [|kw rest IH]; simpl.
  - split; [intros _ v [] | done].
  - destruct (last_keyword name rest) as [v'|] eqn:E.
    + split; [discriminate|]. intros H.
      assert (Some v' = None) as Hn; [|discriminate].
      apply IH. intros v Hv. apply (H v). by right.
    + destruct IH as [IH _]. specialize (IH eq_refl).
      destruct kw as [| | | | | |[arg|] v|]; try (split; [intros _ v' [?|?]; [discriminate|by eapply IH] | done]).
      destruct (String.eqb_spec arg name) as [->|Hne].
      * split; [discriminate|]. intros H. exfalso. apply (H v). by left.
      * split; [|done]. intros _ v' [Heq|?]; [congruence | by eapply IH].
Qed.

(** One iteration that returns: it saw a keyword; a named one got an entry
    that is the outcome of the [elif] chain, an unnamed one changed
    nothing. *)
Lemma loop_body_inv kw st w st' w' :
  loop_body kw st w = (Ok st', w') →
  match kw with
  | keyword (Some arg) v =>
      ∃ x, classify arg v (value_var st) w = (Ok (Some x), w')
           ∧ st' = LoopState (<[arg := x]> (metadata st)) (Some x)
  | keyword None _ => st' = st
  | _ => False
  end.
Proof.
  destruct kw as [| | | | | |[arg|] v|]; simpl; try discriminate.
  - intros H. apply bind_inv in H as (value & w1 & Hc & H).
    destruct value as [x|]; [|discriminate].
    injection H as <- <-. eauto.
  - intros H. by injection H as <- _.
Qed.

(** A name no keyword carries keeps its entry. *)
Lemma loop_lookup_other name kws : ∀ st w st' w',
  loop kws st w = (Ok st', w') →
  last_keyword name kws = None →
  metadata st' !! name = metadata st !! name.
Proof.
  induction kws as [|kw rest IH]; simpl; intros st w st' w' H Hl.
  - by injection H as <- _.
  - apply bind_inv in H as (st1 & w1 & Hb & H).
    destruct (last_keyword name rest) eqn:E; [discriminate|].
    rewrite (IH _ _ _ _ H eq_refl).
    apply loop_body_inv in Hb.
    destruct kw as [| | | | | |[arg|] v|]; try done; [|by subst].
    destruct Hb as (x & _ & ->). simpl.
    destruct (String.eqb_spec arg name) as [->|Hne]; [discriminate|].
    by rewrite lookup_insert_ne.
Qed.

(** Last write wins: the entry of [name] is what the [elif] chain made of
    the last keyword named [name]. *)
Lemma loop_lookup_last name kws v : ∀ st w st' w',
  loop kws st w = (Ok st', w') →
  last_keyword name kws = Some v →
  ∃ value w0 w1, classify name v value w0 = (Ok (metadata st' !! name), w1).
Proof.
  induction kws as [|kw rest IH]; simpl; intros st w st' w' H Hl; [discriminate|].
  apply bind_inv in H as (st1 & w1 & Hb & H).
  destruct (last_keyword name rest) as [v'|] eqn:E.
  - injection Hl as ->. eauto.
  - rewrite (loop_lookup_other _ _ _ _ _ _ H E).
    apply loop_body_inv in Hb.
    destruct kw as [| | | | | |[arg|] v'|]; try done.
    destruct (String.eqb_spec arg name) as [->|Hne]; [|discriminate].
    injection Hl as ->. destruct Hb as (x & Hc & ->). simpl.
    rewrite lookup_insert_eq. eauto.
Qed.

(** ** The [elif] chain *)

Lemma get_value_const v c : get_value v = Ok (OConst c) → v = Constant c.
Proof.
  destruct v as [c'| | | | | | |cls fs]; simpl; try discriminate; [congruence|].
  destruct (list_find _ fs) as [[i [k [x|xs]]]|]; discriminate.
Qed.

(** The value of [author] or [author_email], when the branch of line 32
    returns: the keyword held a string, and the entry is the list of its
    trimmed comma-separated segments. *)
Lemma classify_names_inv arg v value w r w' :
  arg = "author" ∨ arg = "author_email" →
  classify arg v value w = (Ok r, w') →
  ∃ s, v = Constant (CStr s) ∧ r = Some (VList (map Str.strip (Str.split "," s))).
Proof.
  intros Harg H.
  assert (String.eqb arg "author" || String.eqb arg "author_email" = true) as Hb.
  { destruct Harg as [-> | ->]; reflexivity. }
  unfold classify in H. rewrite Hb in H. clear Hb.
  apply bind_inv in H as (o & w1 & Ho & H).
  apply bind_inv in H as (parts & w2 & Hp & H).
  unfold lift in Ho, Hp. injection Ho as Ho <-. injection Hp as Hp <-.
  destruct o as [[s| | | |]| | |]; simpl in Hp; try discriminate.
  injection Hp as <-. apply get_value_const in Ho as ->.
  run in H. injection H as <- _. eauto.
Qed.

Lemma classify_names arg s value w :
  arg = "author" ∨ arg = "author_email" →
  classify arg (Constant (CStr s)) value w
  = (Ok (Some (VList (map Str.strip (Str.split "," s)))),
     log (Printed (AddingList arg (map Str.strip (Str.split "," s)))) w).
Proof. intros [-> | ->]; reflexivity. Qed.

Lemma classify_keywords_str s value w :
  classify "keywords" (Constant (CStr s)) value w
  = (Ok (Some (VList (keywords_of s))), log (Printed (AddingList "keywords" (keywords_of s))) w).
Proof. reflexivity. Qed.

(** A list or tuple literal has no attribute [value]: line 36 raises. *)
Lemma classify_keywords_sequence elts value w :
  classify "keywords" (List elts) value w = (Raise (AttributeError "value"), w)
  ∧ classify "keywords" (Tuple elts) value w = (Raise (AttributeError "value"), w).
Proof. split; reflexivity. Qed.

(** No branch matches: the chain leaves the variable [value] as it was. *)
Lemma classify_unrecognized arg v value w :
  named_rule arg = false → unrecognized v = true →
  classify arg v value w = (Ok value, w).
Proof.
  unfold named_rule, classify. intros Hn Hv.
  apply orb_false_iff in Hn as [Hn ->]. rewrite Hn.
  by destruct v.
Qed.

(** Line 60 then stores the value of an earlier keyword under this name,
    or raises when there is none. *)
Lemma loop_body_unrecognized arg v st w :
  named_rule arg = false → unrecognized v = true →
  loop_body (keyword (Some arg) v) st w =
  match value_var st with
  | Some x => (Ok (LoopState (<[arg := x]> (metadata st)) (Some x)), w)
  | None => (Raise (UnboundLocalError "value"), w)
  end.
Proof.
  intros Hn Hv. simpl.
  rewrite (bind_Ok _ _ _ _ _ (classify_unrecognized arg v (value_var st) w Hn Hv)).
  by destruct (value_var st).
Qed.

(** ** The merger *)

Lemma merge_authors_other md w md' w' k :
  merge_authors md w = (Ok md', w') → k ≠ "author" → md' !! k = md !! k.
Proof.
  unfold merge_authors. intros H Hk.
  destruct (md !! "author_email") as [emails|]; [|by injection H as <- _].
  destruct (md !! "author") as [authors|]; [|discriminate].
  apply bind_inv in H as (n & w1 & _ & H).
  apply bind_inv in H as (m & w2 & _ & H).
  destruct (negb (n =? m)%nat).
  - run in H. by injection H as <- _.
  - apply bind_inv in H as (names & w3 & _ & H).
    apply bind_inv in H as (mails & w4 & _ & H).
    injection H as <- _. by rewrite lookup_insert_ne.
Qed.

(** The entries of [author] and [author_email] after the loop are lists:
    the trimmed segments of the last such keyword's string. *)
Lemma loop_names_entry arg kws s st w st' w' :
  arg = "author" ∨ arg = "author_email" →
  loop kws st w = (Ok st', w') →
  last_keyword arg kws = Some (Constant (CStr s)) →
  metadata st' !! arg = Some (VList (map Str.strip (Str.split "," s))).
Proof.
  intros Harg Hl Hk.
  destruct (loop_lookup_last _ _ _ _ _ _ _ Hl Hk) as (value & w0 & w1 & Hc).
  apply (classify_names_inv _ _ _ _ _ _ Harg) in Hc as (s' & Hs & ->).
  by injection Hs as <-.
Qed.

Lemma merge_authors_mismatch md authors emails w :
  md !! "author" = Some (VList authors) →
  md !! "author_email" = Some (VList emails) →
  length authors ≠ length emails →
  merge_authors md w = (Ok md, log (Printed AuthorsMismatch) w).
Proof.
  intros Ha He Hne. unfold merge_authors. rewrite He, Ha. run. simpl.
  apply Nat.eqb_neq in Hne. by rewrite Hne.
Qed.

Lemma merge_authors_match md authors emails w :
  md !! "author" = Some (VList authors) →
  md !! "author_email" = Some (VList emails) →
  length authors = length emails →
  merge_authors md w = (Ok (<["author" := VList (zip_with pair_up authors emails)]> md), w).
Proof.
  intros Ha He Heq. unfold merge_authors. rewrite He, Ha. run. simpl.
  apply Nat.eqb_eq in Heq. by rewrite Heq.
Qed.

(** ** The claims about the extractor *)

(** C4.  When the loop over the keywords leaves [author] and [author_email]
    as lists of different lengths, extraction returns: the mapping is the
    one the loop built, so [author] is as parsed, and the mismatch message
    is printed before the final one. *)
Theorem mismatched_authors_kept func args kws authors emails w st w' :
  loop kws (LoopState ∅ None) w = (Ok st, w') →
  metadata st !! "author" = Some (VList authors) →
  metadata st !! "author_email" = Some (VList emails) →
  length authors ≠ length emails →
  extract_metadata_from_setup (Call func args kws) w
  = (Ok (metadata st),
     log (Printed (MetadataIs (metadata st))) (log (Printed AuthorsMismatch) w'))
  ∧ metadata st !! "author" = Some (VList authors).
Proof.
  intros Hl Ha He Hne. split; [|done].
  unfold extract_metadata_from_setup.
  rewrite (bind_Ok _ _ _ _ _ Hl).
  by rewrite (bind_Ok _ _ _ _ _ (merge_authors_mismatch _ _ _ _ Ha He Hne)).
Qed.

Lemma mismatched_authors_kept_witness :
  ∃ md w',
    extract_metadata_from_setup (Call (Name "setup") [] setup_mismatch) (World ∅ [])
    = (Ok md, w')
    ∧ md !! "author" = Some (VList ["Alice"; "Bob"])
    ∧ In (Printed AuthorsMismatch) (journal w').
Proof.
  pose (st := LoopState
    (<["author_email" := VList ["a@x.com"]]> (<["author" := VList ["Alice"; "Bob"]]> ∅))
    (Some (VList ["a@x.com"]))).
  pose (w1 := World ∅ [Printed (AddingList "author" ["Alice"; "Bob"]);
                       Printed (AddingList "author_email" ["a@x.com"])]).
  destruct (mismatched_authors_kept (Name "setup") [] setup_mismatch
              ["Alice"; "Bob"] ["a@x.com"] (World ∅ []) st w1) as [H Ha].
  - reflexivity.
  - reflexivity.
  - reflexivity.
  - simpl. lia.
  - eexists _, _. split; [exact H|]. split; [exact Ha|].
    simpl. right. right. left. reflexivity.
Defined.

(** C5.  When the last [author] and [author_email] keywords hold strings
    with as many comma-separated segments, and no keyword makes the loop
    raise, extraction returns a mapping whose [author] pairs the trimmed
    name and the trimmed email of each index as "name <email>". *)
Theorem equal_authors_merged func args kws a e w st w1 :
  loop kws (LoopState ∅ None) w = (Ok st, w1) →
  last_keyword "author" kws = Some (Constant (CStr a)) →
  last_keyword "author_email" kws = Some (Constant (CStr e)) →
  length (Str.split "," a) = length (Str.split "," e) →
  ∃ md w' merged,
    extract_metadata_from_setup (Call func args kws) w = (Ok md, w')
    ∧ md !! "author" = Some (VList merged)
    ∧ length merged = length (Str.split "," a)
    ∧ ∀ (i : nat) name email,
        Str.split "," a !! i = Some name → Str.split "," e !! i = Some email →
        merged !! i = Some (Str.strip name ++ " <" ++ Str.strip email ++ ">").
Proof.
  intros Hl Ha He Hlen.
  pose proof (loop_names_entry "author" _ _ _ _ _ _ (or_introl eq_refl) Hl Ha) as Hma.
  pose proof (loop_names_entry "author_email" _ _ _ _ _ _ (or_intror eq_refl) Hl He) as Hme.
  assert (length (map Str.strip (Str.split "," a)) = length (map Str.strip (Str.split "," e)))
    as Hlen' by (by rewrite !length_map).
  eexists _, _, _. split; [|split; [|split]].
  - unfold extract_metadata_from_setup.
    rewrite (bind_Ok _ _ _ _ _ Hl).
    rewrite (bind_Ok _ _ _ _ _ (merge_authors_match _ _ _ _ Hma Hme Hlen')).
    reflexivity.
  - apply lookup_insert_eq.
  - rewrite length_zip_with, !length_map. lia.
  - intros i name email Hn Hm.
    rewrite lookup_zip_with, !list_lookup_fmap, Hn, Hm. reflexivity.
Qed.

Lemma equal_authors_merged_witness :
  ∃ md w',
    extract_metadata_from_setup (Call (Name "setup") [] setup_matching) (World ∅ [])
    = (Ok md, w')
    ∧ md !! "author" = Some (VList ["Alice <a@x.com>"; "Bob <b@y.com>"]).
Proof.
  pose (st := LoopState
    (<["author_email" := VList ["a@x.com"; "b@y.com"]]>
       (<["author" := VList ["Alice"; "Bob"]]> ∅))
    (Some (VList ["a@x.com"; "b@y.com"]))).
  pose (w1 := World ∅ [Printed (AddingList "author" ["Alice"; "Bob"]);
                       Printed (AddingList "author_email" ["a@x.com"; "b@y.com"])]).
  destruct (equal_authors_merged (Name "setup") [] setup_matching
              "Alice, Bob" "a@x.com, b@y.com" (World ∅ []) st w1)
    as (md & w' & merged & H & Hm & Hlen & Hi); try reflexivity.
  exists md, w'. split; [exact H|]. rewrite Hm. f_equal. f_equal.
  destruct merged as [|x [|y [|z r]]]; try discriminate Hlen.
  pose proof (Hi 0%nat "Alice" "a@x.com" eq_refl eq_refl) as H0.
  pose proof (Hi 1%nat " Bob" " b@y.com" eq_refl eq_refl) as H1.
  injection H0 as ->. injection H1 as ->. reflexivity.
Defined.

(** C6.  A call with an [author_email] keyword and no [author] keyword:
    extraction raises.  When the loop itself does not raise, the exception
    is the [KeyError] of line 64, raised before anything more is printed. *)
Theorem email_without_author_raises func args kws w :
  (∃ v, In (keyword (Some "author_email") v) kws) →
  (∀ v, ¬ In (keyword (Some "author") v) kws) →
  ∃ e w',
    extract_metadata_from_setup (Call func args kws) w = (Raise e, w')
    ∧ ∀ st w1, loop kws (LoopState ∅ None) w = (Ok st, w1) →
        e = KeyError "author" ∧ w' = w1.
Proof.
  intros [v Hv] Hno. unfold extract_metadata_from_setup.
  destruct (loop kws (LoopState ∅ None) w) as [[st|e] w1] eqn:Hl.
  - apply last_keyword_None in Hno.
    pose proof (loop_lookup_other _ _ _ _ _ _ Hl Hno) as Ha.
    simpl in Ha. rewrite lookup_empty in Ha.
    destruct (last_keyword "author_email" kws) as [v'|] eqn:He.
    + destruct (loop_lookup_last _ _ _ _ _ _ _ Hl He) as (value & w0 & w2 & Hc).
      apply (classify_names_inv _ _ _ _ _ _ (or_intror eq_refl)) in Hc as (s & _ & Hm).
      exists (KeyError "author"), w1. split.
      * rewrite (bind_Ok _ _ _ _ _ Hl). unfold merge_authors. rewrite Hm, Ha. reflexivity.
      * intros st' w1' Heq. by injection Heq as _ <-.
    + exfalso. by eapply last_keyword_None.
  - exists e, w1. split; [|discriminate].
    by rewrite (bind_Raise _ _ _ _ _ Hl).
Qed.

Lemma email_without_author_raises_witness :
  ∃ w', extract_metadata_from_setup
          (Call (Name "setup") [] [keyword (Some "author_email") (Constant (CStr "a@x.com"))])
          (World ∅ [])
        = (Raise (KeyError "author"), w').
Proof.
  destruct (email_without_author_raises (Name "setup") []
              [keyword (Some "author_email") (Constant (CStr "a@x.com"))] (World ∅ []))
    as (e & w' & H & He).
  - eexists. left. reflexivity.
  - intros v [Hv|[]]. discriminate Hv.
  - destruct (He _ _ eq_refl) as [-> _]. by exists w'.
Defined.

(** C10.  When the last [keywords] keyword holds the string "a, b, c", or
    the string "a b c", every mapping extraction returns has
    [keywords] = ["a"; "b"; "c"]; the call with that keyword alone does
    return one.  The second string has a single comma-separated segment, so
    its words come from the split on white space. *)
Theorem keywords_string_split func args kws s w md w' :
  s = "a, b, c" ∨ s = "a b c" →
  last_keyword "keywords" kws = Some (Constant (CStr s)) →
  extract_metadata_from_setup (Call func args kws) w = (Ok md, w') →
  md !! "keywords" = Some (VList ["a"; "b"; "c"])
  ∧ (extract_metadata_from_setup
       (Call func args [keyword (Some "keywords") (Constant (CStr s))]) w).1
    = Ok {[ "keywords" := VList ["a"; "b"; "c"] ]}
  ∧ length (Str.split "," "a b c") = 1%nat
  ∧ Str.split_ws "a b c" = ["a"; "b"; "c"]
  ∧ map Str.strip (Str.split "," "a, b, c") = ["a"; "b"; "c"].
Proof.
  intros Hs Hk H. split; [|split; [|by repeat split]].
  - unfold extract_metadata_from_setup in H.
    apply bind_inv in H as (st & w1 & Hl & H).
    apply bind_inv in H as (md' & w2 & Hm & H).
    run in H. injection H as <- _.
    rewrite (merge_authors_other _ _ _ _ "keywords" Hm); [|done].
    destruct (loop_lookup_last _ _ _ _ _ _ _ Hl Hk) as (value & w0 & w3 & Hc).
    rewrite classify_keywords_str in Hc. injection Hc as <- _.
    by destruct Hs as [-> | ->].
  - by destruct Hs as [-> | ->].
Qed.

Lemma keywords_string_split_witness :
  ∃ md, (extract_metadata_from_setup
           (Call (Name "setup") []
              [keyword (Some "name") (Constant (CStr "x"));
               keyword (Some "keywords") (Constant (CStr "a b c"))]) (World ∅ [])).1 = Ok md
        ∧ md !! "keywords" = Some (VList ["a"; "b"; "c"]).
Proof.
  eexists. split; [reflexivity|].
  eapply (keywords_string_split (Name "setup") []
            [keyword (Some "name") (Constant (CStr "x"));
             keyword (Some "keywords") (Constant (CStr "a b c"))]
            "a b c" (World ∅ [])).
  - right. reflexivity.
  - reflexivity.
  - reflexivity.
Defined.

(** A keyword at which the body always raises makes the loop raise,
    whatever comes before and after it. *)
Lemma loop_raises_at kw post :
  (∀ st w, ∃ e, loop_body kw st w = (Raise e, w)) →
  ∀ pre st w, ∃ e w', loop (pre ++ kw :: post) st w = (Raise e, w').
Proof.
  intros Hkw. induction pre as [|k pre IH]; intros st w; simpl.
  - destruct (Hkw st w) as [e He]. exists e, w. by rewrite (bind_Raise _ _ _ _ _ He).
  - destruct (loop_body k st w) as [[st1|e] w1] eqn:Hb.
    + rewrite (bind_Ok _ _ _ _ _ Hb). apply IH.
    + exists e, w1. by rewrite (bind_Raise _ _ _ _ _ Hb).
Qed.

(** C3.  A [keywords] keyword whose value is a list or tuple literal:
    line 36 reads the attribute [value], which such a node does not have.
    Extraction raises [AttributeError] for the call with that keyword alone,
    and returns no mapping for any call that has it. *)
Theorem keywords_sequence_raises func args elts w :
  extract_metadata_from_setup (Call func args [keyword (Some "keywords") (List elts)]) w
  = (Raise (AttributeError "value"), w)
  ∧ extract_metadata_from_setup (Call func args [keyword (Some "keywords") (Tuple elts)]) w
    = (Raise (AttributeError "value"), w)
  ∧ (∀ pre post, ∃ e w',
       extract_metadata_from_setup
         (Call func args (pre ++ keyword (Some "keywords") (List elts) :: post)) w
       = (Raise e, w'))
  ∧ (∀ pre post, ∃ e w',
       extract_metadata_from_setup
         (Call func args (pre ++ keyword (Some "keywords") (Tuple elts) :: post)) w
       = (Raise e, w')).
Proof.
  assert (∀ seq, seq = List elts ∨ seq = Tuple elts → ∀ pre post, ∃ e w',
            extract_metadata_from_setup
              (Call func args (pre ++ keyword (Some "keywords") seq :: post)) w
            = (Raise e, w')) as Hany.
  { intros seq Hseq pre post. unfold extract_metadata_from_setup.
    destruct (loop_raises_at (keyword (Some "keywords") seq) post) with (pre := pre)
      (st := LoopState ∅ None) (w := w) as (e & w' & He).
    - intros st w0. exists (AttributeError "value"). by destruct Hseq as [-> | ->].
    - exists e, w'. by rewrite (bind_Raise _ _ _ _ _ He). }
  split; [reflexivity|]. split; [reflexivity|]. split; apply Hany; auto.
Qed.

(** C1.  A keyword whose value no branch recognizes is not left out.  After
    [name="x"], the keyword [version=get_version()] gets the entry "x", the
    value of the keyword before it; as the first keyword it makes line 60
    raise [UnboundLocalError], and no mapping is returned. *)
Theorem unrecognized_value_not_omitted :
  unrecognized get_version_call = true ∧ named_rule "version" = false
  ∧ (∃ md w', extract_metadata_from_setup setup_stale (World ∅ []) = (Ok md, w')
              ∧ md !! "version" = Some (VStr "x"))
  ∧ ∀ w, extract_metadata_from_setup setup_unbound w = (Raise (UnboundLocalError "value"), w).
Proof.
  split; [reflexivity|]. split; [reflexivity|]. split.
  - eexists _, _. split; reflexivity.
  - reflexivity.
Qed.

(** ** Strings *)

Lemma append_cons (x : ascii) (a b : string) : String x a ++ b = String x (a ++ b).
Proof. reflexivity. Qed.

Lemma append_assoc (a b c : string) : (a ++ b) ++ c = a ++ (b ++ c).
Proof. induction a as [|x a IH]; [done | by rewrite !append_cons, IH]. Qed.

Lemma append_nil_r (a : string) : a ++ "" = a.
Proof. induction a as [|x a IH]; [done | by rewrite append_cons, IH]. Qed.

Lemma join_cons sep x y l :
  Str.join sep (x :: y :: l) = x ++ sep ++ Str.join sep (y :: l).
Proof. reflexivity. Qed.

(** Every item of a text joined by line breaks is a line of it. *)
Lemma join_is_line (f : string → string) pre e post :
  is_line_of (f e) (Str.join NL (map f (pre ++ e :: post))).
Proof.
  induction pre as [|p pre IH].
  - destruct post as [|q post].
    + exists "", "". simpl. rewrite append_nil_r. auto.
    + exists "", (NL ++ Str.join NL (map f (q :: post))). split; [reflexivity|]. eauto.
  - destruct IH as (before & after & Hb & Hbefore & Hafter).
    exists (f p ++ NL ++ before), after. split; [|split; [|done]].
    + change (map f ((p :: pre) ++ e :: post)) with (f p :: map f (pre ++ e :: post)).
      assert (∃ y l, map f (pre ++ e :: post) = y :: l) as (y & l & Hy).
      { destruct pre; simpl; eauto. }
      rewrite Hy in Hb |- *. rewrite join_cons, Hb.
      by rewrite !append_assoc.
    + right. destruct Hbefore as [-> | [b ->]].
      * exists (f p). by rewrite append_nil_r.
      * exists (f p ++ NL ++ b). by rewrite !append_assoc.
Qed.

(** ** The renderer *)

(** C7.  For every entry of the scripts field, the scripts block has a line
    made of the stem of the entry's base name, " = ", and, in double quotes,
    the entry followed by ".__main__:main".  For ["bin/mytool"] the block is
    that one line, with the key "mytool". *)
Theorem scripts_section_lines scripts (entries pre : list string) script (post : list string) :
  py_iter scripts = Ok entries →
  entries = (pre ++ script :: post)%list →
  ∃ block,
    scripts_section scripts = Ok block
    ∧ is_line_of ((splitext (basename script)).1
                  ++ " = " ++ DQ ++ script ++ ".__main__:main" ++ DQ) block
    ∧ scripts_section (VList ["bin/mytool"])
      = Ok ("mytool = " ++ DQ ++ "bin/mytool.__main__:main" ++ DQ).
Proof.
  intros Hi ->. unfold scripts_section. rewrite Hi.
  eexists. split; [reflexivity|]. split; [|reflexivity].
  apply (join_is_line script_line).
Qed.

Lemma scripts_section_lines_witness :
  ∃ block,
    scripts_section (VList ["bin/mytool"; "tools/run.py"]) = Ok block
    ∧ is_line_of ("run = " ++ DQ ++ "tools/run.py.__main__:main" ++ DQ) block.
Proof.
  destruct (scripts_section_lines (VList ["bin/mytool"; "tools/run.py"])
              ["bin/mytool"; "tools/run.py"] ["bin/mytool"] "tools/run.py" [])
    as (block & Hb & Hl & _).
  - reflexivity.
  - reflexivity.
  - exists block. split; [exact Hb | exact Hl].
Defined.

(** ** The entry point *)

(** C8.  [sys.argv] holds the program's name and the positional arguments.
    When it does not have exactly three items, [main] prints the usage
    message and raises [SystemExit(1)]: the process ends with status 1, the
    files are as before, and the only new event is that message, so no file
    was opened. *)
Theorem wrong_argument_count ast_parse argv w :
  length argv ≠ 3%nat →
  main ast_parse argv w = (Raise (SystemExit 1), log (Printed Usage) w)
  ∧ exit_status (main ast_parse argv w).1 = 1
  ∧ files (main ast_parse argv w).2 = files w
  ∧ journal (main ast_parse argv w).2 = (journal w ++ [Printed Usage])%list.
Proof.
  intros Hlen.
  assert (main ast_parse argv w = (Raise (SystemExit 1), log (Printed Usage) w)) as ->.
  { destruct argv as [|a0 [|a1 [|a2 [|a3 rest]]]]; try reflexivity.
    simpl in Hlen. lia. }
  done.
Qed.

Lemma wrong_argument_count_witness :
  main parse_nothing ["py2toml.py"] one_file
  = (Raise (SystemExit 1), World {[ "setup.py" := "" ]} [Printed Usage])
  ∧ main parse_nothing ["py2toml.py"; "setup.py"] one_file
    = (Raise (SystemExit 1), World {[ "setup.py" := "" ]} [Printed Usage])
  ∧ main parse_nothing ["py2toml.py"; "setup.py"; "pyproject.toml"; "extra"] one_file
    = (Raise (SystemExit 1), World {[ "setup.py" := "" ]} [Printed Usage]).
Proof.
  split; [|split].
  - apply (wrong_argument_count parse_nothing ["py2toml.py"] one_file). simpl. lia.
  - apply (wrong_argument_count parse_nothing ["py2toml.py"; "setup.py"] one_file).
    simpl. lia.
  - apply (wrong_argument_count parse_nothing
             ["py2toml.py"; "setup.py"; "pyproject.toml"; "extra"] one_file).
    simpl. lia.
Defined.

(** ** One pass of replacement *)

Lemma startswith_app p rest : Str.startswith p (p ++ rest) = true.
Proof.
  induction p as [|a p IH]; [by destruct rest|].
  rewrite append_cons. simpl. by rewrite Ascii.eqb_refl, IH.
Qed.

Lemma startswith_inv p : ∀ s, Str.startswith p s = true → ∃ rest, s = p ++ rest.
Proof.
  induction p as [|a p IH]; intros s H.
  - by exists s.
  - destruct s as [|b s]; [discriminate|]. simpl in H.
    apply andb_true_iff in H as [Hab Hs]. apply Ascii.eqb_eq in Hab as ->.
    destruct (IH s Hs) as [rest ->]. by exists rest.
Qed.

Lemma length_append (a b : string) :
  String.length (a ++ b) = (String.length a + String.length b)%nat.
Proof. induction a as [|x a IH]; [done|]. rewrite append_cons. simpl. by rewrite IH. Qed.

Section Replace.

Variables old new : string.
Hypothesis old_nonempty : old ≠ "".

Lemma replace_go_skip p : ∀ rest,
  Str.replace_go old new (String.length p) (p ++ rest) = Str.replace_go old new O rest.
Proof.
  induction p as [|a p IH]; intros rest.
  - simpl. by destruct rest.
  - rewrite append_cons. simpl. apply IH.
Qed.

Lemma replace_go_here rest :
  Str.replace_go old new O (old ++ rest) = new ++ Str.replace_go old new O rest.
Proof.
  pose proof (startswith_app old rest) as Hs.
  assert (∃ a o, old = String a o) as (a & o & Ho) by (destruct old; [done | eauto]).
  assert (old ++ rest = String a (o ++ rest)) as Ht by (by rewrite Ho).
  assert (Nat.pred (String.length old) = String.length o) as Hlen by (by rewrite Ho).
  rewrite Ht in Hs |- *. cbn [Str.replace_go]. rewrite Hs, Hlen.
  by rewrite replace_go_skip.
Qed.

Lemma replace_go_keep c s :
  Str.startswith old (String c s) = false →
  Str.replace_go old new O (String c s) = String c (Str.replace_go old new O s).
Proof. intros H. cbn [Str.replace_go]. by rewrite H. Qed.

Lemma replace_nonempty s : Str.replace old new s = Str.replace_go old new O s.
Proof. unfold Str.replace. by destruct old. Qed.

(** [replace] makes one such pass, and a pass has one result. *)
Lemma replace_is_one_pass s : replaced_once old new s (Str.replace old new s).
Proof.
  rewrite replace_nonempty.
  remember (String.length s) as n eqn:Hn.
  revert s Hn. induction n as [n IH] using lt_wf_ind. intros s Hn.
  destruct s as [|c s]; [constructor|].
  destruct (Str.startswith old (String c s)) eqn:Hs.
  - apply startswith_inv in Hs as [rest Hrest]. rewrite Hrest, replace_go_here.
    constructor. apply (IH (String.length rest)); [|done].
    rewrite Hn, Hrest, length_append.
    destruct old; [done | simpl; lia].
  - rewrite (replace_go_keep _ _ Hs). constructor; [done|].
    apply (IH (String.length s)); [simpl in Hn; lia | done].
Qed.

Lemma one_pass_is_replace s r : replaced_once old new s r → r = Str.replace old new s.
Proof.
  rewrite replace_nonempty. induction 1 as [|rest r _ IH|c s r Hs _ IH].
  - done.
  - by rewrite replace_go_here, IH.
  - by rewrite (replace_go_keep _ _ Hs), IH.
Qed.

End Replace.

(** C9.  The renderer returns a text exactly when the template can be
    filled, and the text is then the filled template after one pass that
    rewrites three line breaks into two from the left; it raises exactly
    when filling the template does.  The pass is not repeated: the mapping
    extracted from a call whose classifier has four line breaks in a row is
    rendered with three line breaks in a row left, which a second pass
    would change. *)
Theorem rendered_is_one_pass md :
  (∀ doc, generate_pyproject_toml md = Ok doc
          ↔ ∃ t, fill_template md = Ok t
                 ∧ replaced_once (NL ++ NL ++ NL) (NL ++ NL) t doc)
  ∧ (∀ e, generate_pyproject_toml md = Raise e ↔ fill_template md = Raise e)
  ∧ ∃ md0 w' doc,
      extract_metadata_from_setup setup_blank_run (World ∅ []) = (Ok md0, w')
      ∧ generate_pyproject_toml md0 = Ok doc
      ∧ Str.contains (NL ++ NL ++ NL) doc = true
      ∧ Str.replace (NL ++ NL ++ NL) (NL ++ NL) doc ≠ doc.
Proof.
  split; [|split].
  - intros doc. unfold generate_pyproject_toml.
    destruct (fill_template md) as [t|e]; unfold mbind, result_bind; split.
    + intros [= <-]. exists t. split; [done|]. by apply replace_is_one_pass.
    + intros (t' & [= <-] & Hp). f_equal. symmetry. by apply one_pass_is_replace in Hp.
    + discriminate.
    + by intros (t' & ? & _).
  - intros e. unfold generate_pyproject_toml.
    destruct (fill_template md) as [t|e']; unfold mbind, result_bind; split; done.
  - eexists _, _, _. split; [reflexivity|]. split; [reflexivity|].
    split; [by vm_compute|].
    apply String.eqb_neq. by vm_compute.
Qed.

(** ** The tree walk *)

Lemma sizes_app (l1 l2 : list node) : sizes (l1 ++ l2) = (sizes l1 + sizes l2)%nat.
Proof. unfold sizes. by rewrite map_app, list_sum_app. Qed.

Lemma size_children n : size n = S (sizes (iter_child_nodes n)).
Proof.
  assert (∀ l, (fix sizes (l : list node) : nat :=
                  match l with
                  | [] => O
                  | x :: l' => (size x + sizes l')%nat
                  end) l = sizes l) as Hs.
  { induction l as [|x l IH]; [done|]. unfold sizes in *. simpl. by rewrite IH. }
  destruct n as [c|id|v attr|es|es|f a k|arg v|cls fs]; simpl; rewrite ?Hs.
  - done.
  - done.
  - unfold sizes. simpl. lia.
  - done.
  - done.
  - f_equal. change (f :: a ++ k)%list with ([f] ++ a ++ k)%list. rewrite !sizes_app.
    unfold sizes at 3. simpl. lia.
  - unfold sizes. simpl. lia.
  - f_equal. induction fs as [|[name [x|xs]] fs IH]; [done| |].
    + rewrite IH. change (flat_map _ ((name, One x) :: fs))
        with ([x] ++ flat_map (λ nf : string * field_of node, field_nodes nf.2) fs)%list.
      rewrite sizes_app. unfold sizes at 2. simpl. lia.
    + rewrite IH, Hs. change (flat_map _ ((name, Many xs) :: fs))
        with (xs ++ flat_map (λ nf : string * field_of node, field_nodes nf.2) fs)%list.
      by rewrite sizes_app.
Qed.

Lemma size_pos n : (0 < size n)%nat.
Proof. rewrite size_children. lia. Qed.

(** Every node the walk yields is a node of the queue or below one. *)
Lemma walk_go_sound n fuel : ∀ todo,
  In n (walk_go fuel todo) → ∃ t, In t todo ∧ subnode n t.
Proof.
  induction fuel as [|fuel IH]; intros todo H; [done|].
  destruct todo as [|t rest]; [done|]. simpl in H. destruct H as [<- | H].
  - exists t. split; [by left | constructor].
  - destruct (IH _ H) as (t' & Hin & Hsub).
    apply in_app_or in Hin as [Hin | Hin].
    + exists t'. split; [by right | done].
    + exists t. split; [by left | by eapply subnode_step].
Qed.

(** With fuel for every node of the queue, a node of the queue is reached,
    and from there on the queue holds its children. *)
Lemma walk_go_reaches t post pre : ∀ fuel,
  (sizes (pre ++ t :: post) ≤ fuel)%nat →
  ∃ fuel' todo',
    walk_go fuel (pre ++ t :: post) = (pre ++ t :: walk_go fuel' todo')%list
    ∧ (sizes todo' ≤ fuel')%nat
    ∧ ∀ c, In c (iter_child_nodes t) → In c todo'.
Proof.
  revert post. induction pre as [|p pre IH]; intros post fuel Hf.
  - simpl in Hf. unfold sizes in Hf. simpl in Hf. fold (sizes post) in Hf.
    pose proof (size_children t) as Hc.
    destruct fuel as [|fuel]; [lia|].
    exists fuel, (post ++ iter_child_nodes t)%list. split; [done|]. split.
    + rewrite sizes_app. lia.
    + intros c Hin. apply in_or_app. by right.
  - change ((p :: pre) ++ t :: post)%list with (p :: (pre ++ t :: post))%list in *.
    unfold sizes in Hf. simpl in Hf. fold (sizes (pre ++ t :: post)) in Hf.
    pose proof (size_children p) as Hc.
    destruct fuel as [|fuel]; [lia|].
    destruct (IH (post ++ iter_child_nodes p)%list fuel) as (fuel' & todo' & Hw & Hs & Hch).
    + rewrite sizes_app in *. unfold sizes at 2. simpl.
      fold (sizes (post ++ iter_child_nodes p)). rewrite sizes_app.
      unfold sizes at 2 in Hf. simpl in Hf. fold (sizes post) in Hf. lia.
    + exists fuel', todo'. split; [|done].
      simpl. rewrite <- app_assoc. simpl. by rewrite Hw.
Qed.

Lemma walk_go_complete n t : subnode n t → ∀ fuel todo,
  (sizes todo ≤ fuel)%nat → In t todo → In n (walk_go fuel todo).
Proof.
  induction 1 as [|c t Hc _ IH]; intros fuel todo Hf Hin.
  - apply in_split in Hin as (pre & post & ->).
    destruct (walk_go_reaches n post pre fuel Hf) as (fuel' & todo' & -> & _).
    apply in_or_app. right. by left.
  - apply in_split in Hin as (pre & post & ->).
    destruct (walk_go_reaches t post pre fuel Hf) as (fuel' & todo' & -> & Hs & Hch).
    apply in_or_app. right. right. apply IH; [done | by apply Hch].
Qed.

(** [ast.walk] yields the nodes of the tree, all of them. *)
Lemma walk_spec n tree : In n (walk tree) ↔ subnode n tree.
Proof.
  unfold walk. split.
  - intros H. apply walk_go_sound in H as (t & [<- | []] & Hs). done.
  - intros H. apply (walk_go_complete _ _ H); [|by left].
    unfold sizes. simpl. lia.
Qed.

(** ** A source without a setup call *)

Lemma find_setup_in_none nodes :
  (∀ n, In n nodes → plain_callee n) → find_setup_in nodes = Ok None.
Proof.
  induction nodes as [|n nodes IH]; intros H; [done|].
  assert (find_setup_in nodes = Ok None) as Hrest.
  { apply IH. intros m Hm. apply H. by right. }
  pose proof (H n (or_introl eq_refl)) as Hn. simpl.
  destruct n as [| | | | |f a k| |]; try done.
  destruct f as [|id|v attr| | | | |]; simpl in Hn; try done; simpl.
  - apply String.eqb_neq in Hn. by rewrite Hn.
  - apply String.eqb_neq in Hn. by rewrite Hn.
Qed.



(** C2.  The source [f()()] has no call whose callee is named [setup], yet
    the search raises: the outer call's callee has neither [id] nor [attr],
    and the [AttributeError] of line 19 is not caught.  [main] ends with
    that exception after opening the source, and writes no manifest. *)
Theorem setup_absent_raises :
  (∀ n, subnode n call_of_call → calls_setup n = false)
  ∧ find_setup_function call_of_call = Raise (AttributeError "attr")
  ∧ let w := World {[ "setup.py" := "f()()" ]} [] in
    main parse_call_of_call ["py2toml.py"; "setup.py"; "pyproject.toml"] w
    = (Raise (AttributeError "attr"), log (OpenedForReading "setup.py") w).
Proof.
  split; [|split; reflexivity].
  intros n Hn. apply walk_spec in Hn.
  assert (Forall (λ n, calls_setup n = false) (walk call_of_call)) as Hall.
  { vm_compute. repeat constructor. }
  rewrite Forall_forall in Hall. apply Hall. by apply list_elem_of_In.
Qed.

(** ** Paths *)

Lemma rfind_go_app c a : ∀ b i last,
  Str.rfind_go c (a ++ b) i last
  = Str.rfind_go c b (i + Z.of_nat (String.length a)) (Str.rfind_go c a i last).
Proof.
  induction a as [|x a IH]; intros b i last.
  - simpl. by rewrite Z.add_0_r.
  - rewrite append_cons. simpl Str.rfind_go. rewrite IH. f_equal.
    simpl String.length. lia.
Qed.

Lemma rfind_go_absent c s : ∀ i last,
  Str.contains (String c "") s = false → Str.rfind_go c s i last = last.
Proof.
  induction s as [|x s IH]; intros i last H; [done|].
  simpl in H. apply orb_false_iff in H as [Hx Hs].
  rewrite andb_true_r in Hx. simpl.
  rewrite Ascii.eqb_sym, Hx. by apply IH.
Qed.

Lemma substring_all s : String.substring 0 (String.length s) s = s.
Proof. induction s as [|x s IH]; [done|]. simpl. by rewrite IH. Qed.

Lemma substring_skip a : ∀ n b,
  String.substring (String.length a) n (a ++ b) = String.substring 0 n b.
Proof. induction a as [|x a IH]; intros n b; [done|]. rewrite append_cons. simpl. apply IH. Qed.

(** The base name of a path without a slash is the path; the base name of
    [dir/file] is [file]. *)
Lemma basename_plain p : Str.contains "/" p = false → basename p = p.
Proof.
  intros H. unfold basename, Str.rfind. rewrite (rfind_go_absent _ _ _ _ H).
  unfold Str.from. simpl. rewrite Nat.sub_0_r. apply substring_all.
Qed.

Lemma basename_join dir file :
  Str.contains "/" file = false → basename (dir ++ "/" ++ file) = file.
Proof.
  intros H. unfold basename, Str.rfind.
  rewrite rfind_go_app. change ("/" ++ file) with (String "/" file).
  simpl Str.rfind_go. rewrite (rfind_go_absent _ _ _ _ H).
  unfold Str.from.
  replace (Z.to_nat (0 + Z.of_nat (String.length dir) + 1))
    with (String.length (dir ++ "/")) by (rewrite length_append; simpl; lia).
  change (String "/" file) with ("/" ++ file). rewrite <- append_assoc.
  rewrite substring_skip, !length_append.
  replace (String.length dir + String.length "/" + String.length file
           - (String.length dir + String.length "/"))%nat
    with (String.length file) by lia.
  apply substring_all.
Qed.

(** * Further properties *)

(** ** The search for the setup call *)

Lemma find_setup_in_sound nodes n :
  find_setup_in nodes = Ok (Some n) → In n nodes ∧ calls_setup n = true.
Proof.
  induction nodes as [|m nodes IH]; [done|]. simpl.
  destruct m as [| | | | |f a k| |]; try (intros H; destruct (IH H); by auto).
  destruct f as [|id|v attr| | | | |]; simpl; try discriminate.
  - destruct (String.eqb id "setup") eqn:E.
    + intros [= <-]. split; [by left | done].
    + intros H. destruct (IH H). auto.
  - destruct (String.eqb attr "setup") eqn:E.
    + intros [= <-]. split; [by left | done].
    + intros H. destruct (IH H). auto.
Qed.

Lemma find_setup_in_none_inv nodes :
  find_setup_in nodes = Ok None → ∀ n, In n nodes → plain_callee n.
Proof.
  induction nodes as [|m nodes IH]; [done|]. simpl. intros H n [<- | Hn].
  - destruct m as [| | | | |f a k| |]; try done.
    destruct f as [|id|v attr| | | | |]; simpl in *; try discriminate.
    + destruct (String.eqb_spec id "setup"); [discriminate | done].
    + destruct (String.eqb_spec attr "setup"); [discriminate | done].
  - apply IH; [|done].
    destruct m as [| | | | |f a k| |]; try done.
    destruct f as [|id|v attr| | | | |]; simpl in *; try discriminate.
    + by destruct (String.eqb id "setup").
    + by destruct (String.eqb attr "setup").
Qed.

Lemma find_setup_in_total nodes :
  (∀ n, In n nodes → simple_callee n) →
  (∃ n, In n nodes ∧ calls_setup n = true) →
  ∃ c, find_setup_in nodes = Ok (Some c).
Proof.
  induction nodes as [|m nodes IH]; intros Hs (n & Hn & Hc); [done|].
  assert (calls_setup m = false → ∃ c, find_setup_in nodes = Ok (Some c)) as Hrest.
  { intros Hm. apply IH; [intros x Hx; apply Hs; by right|].
    destruct Hn as [-> | Hn]; [congruence | eauto]. }
  pose proof (Hs m (or_introl eq_refl)) as Hm. simpl.
  destruct m as [| | | | |f a k| |]; try (by apply Hrest).
  destruct f as [|id|v attr| | | | |]; simpl in Hm; try done; simpl.
  - destruct (String.eqb id "setup") eqn:E; [eauto | by apply Hrest].
  - destruct (String.eqb attr "setup") eqn:E; [eauto | by apply Hrest].
Qed.

(** X1.  A node the search returns is a call of the tree whose callee is
    the name or the attribute [setup]. *)
Theorem find_setup_function_sound tree n :
  find_setup_function tree = Ok (Some n) →
  subnode n tree ∧ calls_setup n = true ∧ ∃ func args kws, n = Call func args kws.
Proof.
  intros H. apply find_setup_in_sound in H as [Hin Hc].
  split; [by apply walk_spec|]. split; [done|].
  destruct n; try discriminate. eauto.
Qed.

Lemma find_setup_function_sound_witness :
  ∃ n, find_setup_function
         (Module [Expr (Call (Attribute (Name "setuptools") "setup") [] [])]) = Ok (Some n)
       ∧ calls_setup n = true.
Proof.
  eexists. split; [reflexivity|].
  eapply (find_setup_function_sound
            (Module [Expr (Call (Attribute (Name "setuptools") "setup") [] [])])).
  reflexivity.
Defined.

(** X2.  The search returns [None] exactly when every call of the tree has
    a name or an attribute other than [setup] as callee. *)
Theorem find_setup_function_none tree :
  find_setup_function tree = Ok None ↔ ∀ n, subnode n tree → plain_callee n.
Proof.
  split.
  - intros H n Hn. apply (find_setup_in_none_inv _ H). by apply walk_spec.
  - intros H. apply find_setup_in_none. intros n Hn. apply H. by apply walk_spec.
Qed.

(** X3.  When the callee of every call of the tree is a name or an
    attribute, and some call has [setup] as callee, the search returns a
    call. *)
Theorem find_setup_function_finds tree :
  (∀ n, subnode n tree → simple_callee n) →
  (∃ n, subnode n tree ∧ calls_setup n = true) →
  ∃ c, find_setup_function tree = Ok (Some c).
Proof.
  intros Hs (n & Hn & Hc). apply find_setup_in_total.
  - intros x Hx. apply Hs. by apply walk_spec.
  - exists n. split; [by apply walk_spec | done].
Qed.

(** A property of every node the walk yields holds for every node of the
    tree. *)
Lemma subnodes_forall (P : node → Prop) tree :
  Forall P (walk tree) → ∀ n, subnode n tree → P n.
Proof.
  intros H n Hn. rewrite Forall_forall in H. apply H.
  apply list_elem_of_In. by apply walk_spec.
Qed.

Lemma find_setup_function_finds_witness :
  ∃ c, find_setup_function setup_module = Ok (Some c).
Proof.
  apply (find_setup_function_finds setup_module).
  - apply subnodes_forall. vm_compute. repeat constructor.
  - exists (Call (Attribute (Name "setuptools") "setup") []
              [keyword (Some "name") (Constant (CStr "x"))]).
    split; [|reflexivity].
    apply walk_spec. vm_compute. do 4 right. left. reflexivity.
Defined.



(** ** What the extractor does to the world *)

Lemma world_nil w : World (files w) (journal w ++ map Printed []) = w.
Proof. destruct w. simpl. by rewrite app_nil_r. Qed.

Lemma prints_only_lift {A} (r : result A) : prints_only (lift r).
Proof. exists r, []. intros w. unfold lift. by rewrite world_nil. Qed.

Lemma prints_only_ret {A} (a : A) : prints_only (mret a : M A).
Proof. apply (prints_only_lift (Ok a)). Qed.

Lemma prints_only_raise {A} (e : exn) : prints_only (raise e : M A).
Proof. apply (prints_only_lift (Raise e)). Qed.

Lemma prints_only_print m : prints_only (print m).
Proof. exists (Ok tt), [m]. done. Qed.

Lemma prints_only_bind {A B} (m : M A) (f : A → M B) :
  prints_only m → (∀ a, prints_only (f a)) → prints_only (m ≫= f).
Proof.
  intros (r & msgs & Hm) Hf. destruct r as [a|e].
  - destruct (Hf a) as (r' & msgs' & Hfa). exists r', (msgs ++ msgs')%list.
    intros w. rewrite (bind_Ok _ _ _ _ _ (Hm w)), Hfa. simpl.
    by rewrite map_app, app_assoc.
  - exists (Raise e), msgs. intros w. by rewrite (bind_Raise _ _ _ _ _ (Hm w)).
Qed.

Ltac solve_prints_only :=
  repeat first
    [ apply prints_only_ret | apply prints_only_lift | apply prints_only_raise
    | apply prints_only_print | apply prints_only_bind; [|intros ?] ].

Lemma prints_only_classify arg v value : prints_only (classify arg v value).
Proof.
  unfold classify.
  destruct (_ || _); [solve_prints_only|].
  destruct (String.eqb arg "keywords").
  - apply prints_only_bind; [solve_prints_only|]. intros o.
    apply prints_only_bind; [|intros ?; solve_prints_only].
    destruct o as [[]| | |]; solve_prints_only.
  - destruct v as [[]| | | | | | |]; solve_prints_only.
Qed.

Lemma prints_only_loop_body kw st : prints_only (loop_body kw st).
Proof.
  destruct kw as [| | | | | |[arg|] v|]; simpl; try apply prints_only_raise.
  - apply prints_only_bind; [apply prints_only_classify|].
    intros [x|]; solve_prints_only.
  - solve_prints_only.
Qed.

Lemma prints_only_loop kws : ∀ st, prints_only (loop kws st).
Proof.
  induction kws as [|kw kws IH]; intros st; simpl; [solve_prints_only|].
  apply prints_only_bind; [apply prints_only_loop_body | apply IH].
Qed.

Lemma prints_only_merge_authors md : prints_only (merge_authors md).
Proof.
  unfold merge_authors.
  destruct (md !! "author_email"); [|solve_prints_only].
  destruct (md !! "author"); [|solve_prints_only].
  apply prints_only_bind; [solve_prints_only|]. intros n.
  apply prints_only_bind; [solve_prints_only|]. intros m.
  destruct (negb _); solve_prints_only.
Qed.

Lemma prints_only_extract setup_node :
  prints_only (extract_metadata_from_setup setup_node).
Proof.
  destruct setup_node; simpl; try apply prints_only_raise.
  apply prints_only_bind; [apply prints_only_loop|]. intros st.
  apply prints_only_bind; [apply prints_only_merge_authors|]. intros md.
  solve_prints_only.
Qed.

(** X5.  The extractor only prints: for every node there is one result and
    one list of messages such that, in every world, extraction gives that
    result, appends those messages to the journal, opens no file and leaves
    the files as they were. *)
Theorem extractor_only_prints setup_node :
  ∃ r msgs, ∀ w,
    extract_metadata_from_setup setup_node w
    = (r, World (files w) (journal w ++ map Printed msgs)).
Proof. apply prints_only_extract. Qed.

(** ** What the entry point does to the files *)



(** ** The keys and the entries of the mapping *)

Lemma last_keyword_In name kws v :
  last_keyword name kws = Some v → In (keyword (Some name) v) kws.
Proof.
  induction kws as [|kw rest IH]; simpl; [done|].
  destruct (last_keyword name rest) as [v'|].
  - intros [= ->]. right. by apply IH.
  - destruct kw as [| | | | | |[arg|] v0|]; try done.
    destruct (String.eqb_spec arg name) as [->|]; [|done].
    intros [= ->]. by left.
Qed.

Lemma last_keyword_Some name kws :
  is_Some (last_keyword name kws) ↔ ∃ v, In (keyword (Some name) v) kws.
Proof.
  split.
  - intros [v Hv]. exists v. by apply last_keyword_In.
  - intros [v Hv]. destruct (last_keyword name kws) eqn:E; [done|].
    exfalso. by eapply last_keyword_None.
Qed.

Lemma loop_lookup_some name kws v : ∀ st w st' w',
  loop kws st w = (Ok st', w') →
  last_keyword name kws = Some v →
  is_Some (metadata st' !! name).
Proof.
  induction kws as [|kw rest IH]; simpl; intros st w st' w' Hl Hk; [done|].
  apply bind_inv in Hl as (st1 & w2 & Hb & Hl).
  destruct (last_keyword name rest) as [v'|] eqn:E; [by eapply IH|].
  rewrite (loop_lookup_other _ _ _ _ _ _ Hl E).
  apply loop_body_inv in Hb.
  destruct kw as [| | | | | |[arg|] v'|]; try done.
  destruct (String.eqb_spec arg name) as [->|]; [|done].
  destruct Hb as (x & _ & ->). simpl. by rewrite lookup_insert_eq.
Qed.

Lemma merge_authors_dom md w md' w' k :
  merge_authors md w = (Ok md', w') → is_Some (md' !! k) ↔ is_Some (md !! k).
Proof.
  intros H. destruct (decide (k = "author")) as [->|Hk];
    [|by rewrite (merge_authors_other _ _ _ _ _ H Hk)].
  unfold merge_authors in H.
  destruct (md !! "author_email") as [emails|]; [|by injection H as <- _].
  destruct (md !! "author") as [authors|] eqn:Ha; [|discriminate].
  apply bind_inv in H as (n & w1 & _ & H).
  apply bind_inv in H as (m & w2 & _ & H).
  destruct (negb (n =? m)%nat).
  - run in H. injection H as <- _. by rewrite Ha.
  - apply bind_inv in H as (names & w3 & _ & H).
    apply bind_inv in H as (mails & w4 & _ & H).
    injection H as <- _. rewrite lookup_insert_eq. by split.
Qed.

(** X7.  The keys of a mapping that extraction returns are the names of the
    call's keywords, all of them: a name has an entry exactly when some
    keyword carries it, whatever the shape of that keyword's value. *)
Theorem mapping_keys_are_keyword_names func args kws w md w' :
  extract_metadata_from_setup (Call func args kws) w = (Ok md, w') →
  ∀ name, is_Some (md !! name) ↔ ∃ v, In (keyword (Some name) v) kws.
Proof.
  intros H name. unfold extract_metadata_from_setup in H.
  apply bind_inv in H as (st & w1 & Hl & H).
  apply bind_inv in H as (md' & w2 & Hm & H).
  run in H. injection H as <- _.
  rewrite (merge_authors_dom _ _ _ _ name Hm), <- last_keyword_Some.
  destruct (last_keyword name kws) as [v|] eqn:E.
  - split; [done|]. intros _. by eapply loop_lookup_some.
  - rewrite (loop_lookup_other _ _ _ _ _ _ Hl E). simpl. by rewrite lookup_empty.
Qed.

Lemma mapping_keys_are_keyword_names_witness :
  ∃ md w', extract_metadata_from_setup setup_stale (World ∅ []) = (Ok md, w')
           ∧ is_Some (md !! "version") ∧ md !! "url" = None.
Proof.
  eexists _, _. split; [reflexivity|].
  pose proof (mapping_keys_are_keyword_names (Name "setup") []
    [keyword (Some "name") (Constant (CStr "x")); keyword (Some "version") get_version_call]
    (World ∅ []) _ _ eq_refl) as H.
  split.
  - apply H. exists get_version_call. right. left. reflexivity.
  - apply eq_None_not_Some. rewrite H. intros [v [Hv|[Hv|[]]]]; discriminate.
Defined.

(** ** The entries of constants, literal lists and names *)

Lemma for_each_string_items elts : ∀ l,
  string_items elts = Some l →
  for_each (λ elt, o ← get_value elt; obj_strip o) elts = Ok l.
Proof.
  induction elts as [|e elts IH]; intros l; simpl; [by intros [= <-]|].
  destruct e as [[s| | | |]| | | | | | |]; try discriminate.
  destruct (string_items elts) as [l'|]; [|discriminate].
  intros [= <-]. simpl. by rewrite (IH l' eq_refl).
Qed.

Lemma classify_literal arg v x value w :
  named_rule arg = false → literal_value v = Some x →
  ∃ w', classify arg v value w = (Ok (Some x), w').
Proof.
  unfold named_rule, classify. intros Hn Hv.
  apply orb_false_iff in Hn as [Hn ->]. rewrite Hn.
  destruct v as [c|id| |elts|elts| | |]; simpl in Hv; try discriminate.
  - destruct c; injection Hv as <-; eexists; reflexivity.
  - injection Hv as <-. eexists; reflexivity.
  - destruct (string_items elts) as [l|] eqn:E; [|discriminate].
    injection Hv as <-. rewrite (for_each_string_items _ _ E). eexists; reflexivity.
  - destruct (string_items elts) as [l|] eqn:E; [|discriminate].
    injection Hv as <-. rewrite (for_each_string_items _ _ E). eexists; reflexivity.
Qed.

Lemma extract_literal_entry func args kws name v x w md w' :
  extract_metadata_from_setup (Call func args kws) w = (Ok md, w') →
  named_rule name = false →
  last_keyword name kws = Some v →
  literal_value v = Some x →
  md !! name = Some x.
Proof.
  intros H Hn Hk Hv. unfold extract_metadata_from_setup in H.
  apply bind_inv in H as (st & w1 & Hl & H).
  apply bind_inv in H as (md' & w2 & Hm & H).
  run in H. injection H as <- _.
  rewrite (merge_authors_other _ _ _ _ name Hm).
  - destruct (loop_lookup_last _ _ _ _ _ _ _ Hl Hk) as (value & w0 & w3 & Hc).
    destruct (classify_literal name v x value w0 Hn Hv) as [w4 Hc'].
    rewrite Hc' in Hc. by injection Hc as <- _.
  - intros ->. discriminate.
Qed.

(** X8.  Last write wins, with the value the rules give: when the last
    keyword named [name] (a name other than [author], [author_email] and
    [keywords]) holds a constant, a list or tuple of string literals, or a
    bare name, a mapping that extraction returns has for [name] the string
    with its white space collapsed, the scalar unchanged, the trimmed
    strings, or the identifier. *)
Theorem literal_entry func args kws name v x w md w' :
  extract_metadata_from_setup (Call func args kws) w = (Ok md, w') →
  named_rule name = false →
  last_keyword name kws = Some v →
  literal_value v = Some x →
  md !! name = Some x.
Proof. apply extract_literal_entry. Qed.

(** The keywords [description="old", zip_safe=False] and a second
    [description] over two lines. *)
Lemma literal_entry_witness :
  ∃ md w',
    extract_metadata_from_setup (Call (Name "setup") [] twice_described) (World ∅ [])
    = (Ok md, w')
    ∧ md !! "description" = Some (VStr "A tool for x")
    ∧ md !! "zip_safe" = Some (VConst (CBool false)).
Proof.
  eexists _, _. split; [reflexivity|]. split.
  - eapply (literal_entry (Name "setup") [] twice_described "description" _ _ (World ∅ []));
      reflexivity.
  - eapply (literal_entry (Name "setup") [] twice_described "zip_safe" _ _ (World ∅ []));
      reflexivity.
Defined.

(** ** Keywords with an unrecognized value *)

Lemma loop_app pre rest : ∀ st w,
  loop (pre ++ rest) st w = (loop pre st ≫= loop rest) w.
Proof.
  induction pre as [|kw pre IH]; intros st w; simpl; [done|].
  unfold mbind, M_bind.
  destruct (loop_body kw st w) as [[st1|e] w1]; [|done].
  rewrite IH. by unfold mbind, M_bind.
Qed.

(** X9.  When the first keyword has a name without a rule of its own and a
    value of an unrecognized shape, extraction raises [UnboundLocalError]
    at line 60, whatever keywords follow, and prints nothing. *)
Theorem unrecognized_first_raises func args arg v rest w :
  named_rule arg = false →
  unrecognized v = true →
  extract_metadata_from_setup (Call func args (keyword (Some arg) v :: rest)) w
  = (Raise (UnboundLocalError "value"), w).
Proof.
  intros Hn Hv. unfold extract_metadata_from_setup.
  apply bind_Raise. cbn [loop]. apply bind_Raise.
  by rewrite (loop_body_unrecognized arg v _ w Hn Hv).
Qed.

Lemma unrecognized_first_raises_witness :
  extract_metadata_from_setup
    (Call (Name "setup") []
       [keyword (Some "packages") (Call (Name "find_packages") [] []);
        keyword (Some "name") (Constant (CStr "x"))]) (World ∅ [])
  = (Raise (UnboundLocalError "value"), World ∅ []).
Proof.
  apply (unrecognized_first_raises (Name "setup") [] "packages"
           (Call (Name "find_packages") [] [])); reflexivity.
Defined.

(** X10.  A keyword with a name without a rule of its own and a value of an
    unrecognized shape, standing last, right after a keyword named [prev]:
    in a mapping that extraction returns, its entry is the entry of
    [prev].  ([prev] is not [author], whose entry the merger may change
    afterwards.) *)
Theorem unrecognized_copies_previous func args pre prev u arg v w md w' :
  named_rule arg = false →
  unrecognized v = true →
  prev ≠ "author" →
  extract_metadata_from_setup
    (Call func args (pre ++ [keyword (Some prev) u; keyword (Some arg) v])) w = (Ok md, w') →
  is_Some (md !! arg) ∧ md !! arg = md !! prev.
Proof.
  intros Hn Hv Hp H. unfold extract_metadata_from_setup in H.
  apply bind_inv in H as (st & w1 & Hl & H).
  apply bind_inv in H as (md' & w2 & Hm & H).
  run in H. injection H as <- _.
  assert (arg ≠ "author") as Ha by (intros ->; discriminate).
  rewrite (merge_authors_other _ _ _ _ arg Hm Ha), (merge_authors_other _ _ _ _ prev Hm Hp).
  rewrite loop_app in Hl. apply bind_inv in Hl as (st0 & w0 & _ & Hl).
  cbn [loop] in Hl. apply bind_inv in Hl as (st1 & w3 & Hb1 & Hl).
  apply bind_inv in Hl as (st2 & w4 & Hb2 & Hl). injection Hl as <- _.
  apply loop_body_inv in Hb1 as (x & _ & ->).
  rewrite (loop_body_unrecognized arg v _ w3 Hn Hv) in Hb2. simpl in Hb2.
  injection Hb2 as <- _. simpl. rewrite lookup_insert_eq.
  split; [done|]. destruct (decide (arg = prev)) as [->|Hne].
  - by rewrite lookup_insert_eq.
  - by rewrite lookup_insert_ne, lookup_insert_eq.
Qed.

Lemma unrecognized_copies_previous_witness :
  ∃ md w', extract_metadata_from_setup setup_stale (World ∅ []) = (Ok md, w')
           ∧ md !! "version" = md !! "name".
Proof.
  eexists _, _. split; [reflexivity|].
  eapply (unrecognized_copies_previous (Name "setup") [] [] "name" (Constant (CStr "x"))
            "version" get_version_call (World ∅ [])).
  - reflexivity.
  - reflexivity.
  - discriminate.
  - reflexivity.
Defined.

(** ** Keywords without a name *)

Lemma result_of_prints_only {A} (m : M A) w w' : prints_only m → (m w).1 = (m w').1.
Proof. intros (r & msgs & H). by rewrite !H. Qed.

Lemma bind_result_congr {A B} (m m' : M A) (f : A → M B) w w' :
  (m w).1 = (m' w').1 → (∀ a, prints_only (f a)) →
  ((m ≫= f) w).1 = ((m' ≫= f) w').1.
Proof.
  intros Hm Hf. unfold mbind, M_bind.
  destruct (m w) as [[a|e] w1], (m' w') as [[a'|e'] w1']; simpl in Hm; try discriminate.
  - injection Hm as <-. by apply result_of_prints_only.
  - by injection Hm as <-.
Qed.

Lemma loop_drop_unnamed kws : ∀ st w w',
  (loop kws st w).1 = (loop (drop_unnamed kws) st w').1.
Proof.
  induction kws as [|kw kws IH]; intros st w w'; [done|].
  assert ((∃ v, kw = keyword None v)
          ∨ drop_unnamed (kw :: kws) = kw :: drop_unnamed kws) as [[v ->] | ->].
  { destruct kw as [| | | | | |[arg|] v|]; eauto. }
  - cbn [drop_unnamed List.filter loop loop_body]. fold (drop_unnamed kws).
    run. apply IH.
  - cbn [loop]. unfold mbind, M_bind.
    pose proof (result_of_prints_only _ w w' (prints_only_loop_body kw st)) as Hb.
    destruct (loop_body kw st w) as [[st1|e] w1], (loop_body kw st w') as [[st1'|e'] w1'];
      simpl in Hb; try discriminate.
    + injection Hb as <-. apply IH.
    + by injection Hb as <-.
Qed.

(** X11.  Keywords without a name ([**mapping] arguments) do not count:
    extraction gives the same result, mapping or exception, as for the call
    without them. *)
Theorem unnamed_keywords_ignored func args kws w :
  (extract_metadata_from_setup (Call func args kws) w).1
  = (extract_metadata_from_setup (Call func args (drop_unnamed kws)) w).1.
Proof.
  unfold extract_metadata_from_setup. apply bind_result_congr.
  - apply loop_drop_unnamed.
  - intros st. apply prints_only_bind; [apply prints_only_merge_authors|].
    intros md. solve_prints_only.
Qed.

(** ** When the renderer raises *)

Lemma py_iter_iterable v : iterable v = true → ∃ l, py_iter v = Ok l.
Proof. destruct v as [[]|]; simpl; try discriminate; eauto. Qed.

Lemma py_iter_not_iterable v : iterable v = false → py_iter v = Raise TypeError.
Proof. by destruct v as [[]|]. Qed.

(** X12.  The renderer returns a text when the three fields it iterates
    are lists or strings ([classifiers] may also be any falsy value);
    otherwise it raises [TypeError], as for [install_requires=None]. *)
Theorem renderer_raises_on_scalars md :
  (renderable md = true → ∃ doc, generate_pyproject_toml md = Ok doc)
  ∧ (renderable md = false → generate_pyproject_toml md = Raise TypeError).
Proof.
  unfold renderable, generate_pyproject_toml, fill_template, render_classifiers,
    generate_dependency_section, scripts_section.
  split.
  - intros H. apply andb_true_iff in H as [H Hs]. apply andb_true_iff in H as [Hc Hr].
    destruct (py_iter_iterable _ Hs) as [ls ->].
    destruct (py_iter_iterable _ Hr) as [lr ->].
    destruct (truthy (get md "classifiers" (VList []))); [|eexists; reflexivity].
    destruct (py_iter_iterable _ Hc) as [lc ->]. eexists; reflexivity.
  - intros H.
    destruct (truthy (get md "classifiers" (VList []))) eqn:Ht;
      destruct (iterable (get md "classifiers" (VList []))) eqn:Hc;
      destruct (iterable (get md "install_requires" (VList []))) eqn:Hr;
      destruct (iterable (get md "scripts" (VList []))) eqn:Hs;
      try discriminate H;
      repeat match goal with
        | Hi : iterable ?v = true |- _ =>
            let l := fresh "l" in destruct (py_iter_iterable _ Hi) as [l ->]; clear Hi
        | Hi : iterable ?v = false |- _ =>
            rewrite (py_iter_not_iterable _ Hi); clear Hi
        end;
      reflexivity.
Qed.

Lemma renderer_raises_on_scalars_witness :
  generate_pyproject_toml {[ "install_requires" := VConst CNone ]} = Raise TypeError
  ∧ ∃ doc, generate_pyproject_toml {[ "classifiers" := VConst CNone ]} = Ok doc.
Proof.
  split.
  - apply (renderer_raises_on_scalars {[ "install_requires" := VConst CNone ]}).
    reflexivity.
  - apply (renderer_raises_on_scalars {[ "classifiers" := VConst CNone ]}).
    reflexivity.
Defined.

(** ** Characters of split, joined and trimmed strings *)

Lemma contains_char_cons c x s :
  Str.contains (String c "") (String x s) = Ascii.eqb c x || Str.contains (String c "") s.
Proof. simpl. by rewrite andb_true_r. Qed.

Lemma contains_char_app c a : ∀ b,
  Str.contains (String c "") (a ++ b)
  = Str.contains (String c "") a || Str.contains (String c "") b.
Proof.
  induction a as [|x a IH]; intros b; [done|].
  rewrite append_cons, !contains_char_cons, IH. by rewrite orb_assoc.
Qed.

Lemma split_nonempty sep s : Str.split sep s ≠ [].
Proof.
  destruct s as [|c s]; simpl; [done|].
  destruct (Ascii.eqb c sep); [done|]. by destruct (Str.split sep s).
Qed.

(** No segment of a split holds the separator. *)
Lemma split_segments sep s :
  Forall (λ x, Str.contains (String sep "") x = false) (Str.split sep s).
Proof.
  induction s as [|c s IH]; simpl; [by repeat constructor|].
  destruct (Ascii.eqb c sep) eqn:E; [by constructor|].
  destruct (Str.split sep s) as [|w ws]; [by repeat constructor; rewrite contains_char_cons,
    Ascii.eqb_sym, E|].
  inversion IH as [|? ? Hw Hws]; subst. constructor; [|done].
  by rewrite contains_char_cons, Ascii.eqb_sym, E.
Qed.

Lemma split_without_sep sep x :
  Str.contains (String sep "") x = false → Str.split sep x = [x].
Proof.
  induction x as [|c x IH]; [done|]. rewrite contains_char_cons.
  intros H. apply orb_false_iff in H as [Hc Hx]. simpl.
  by rewrite Ascii.eqb_sym, Hc, (IH Hx).
Qed.

Lemma split_app_sep sep x rest :
  Str.contains (String sep "") x = false →
  Str.split sep (x ++ String sep rest) = x :: Str.split sep rest.
Proof.
  induction x as [|c x IH].
  - intros _. simpl. by rewrite Ascii.eqb_refl.
  - rewrite contains_char_cons. intros H. apply orb_false_iff in H as [Hc Hx].
    rewrite append_cons. simpl. by rewrite Ascii.eqb_sym, Hc, (IH Hx).
Qed.

(** Splitting what was joined gives the items back, when no item holds the
    separator. *)
Lemma split_join sep l :
  l ≠ [] →
  Forall (λ x, Str.contains (String sep "") x = false) l →
  Str.split sep (Str.join (String sep "") l) = l.
Proof.
  induction l as [|x l IH]; [done|]. intros _ H.
  inversion H as [|? ? Hx Hl]; subst.
  destruct l as [|y l]; [by apply split_without_sep|].
  rewrite join_cons. change (String sep "" ++ ?r) with (String sep r).
  rewrite (split_app_sep _ _ _ Hx). f_equal. by apply IH.
Qed.

Lemma join_without_char c sep l :
  Str.contains (String c "") sep = false →
  Forall (λ x, Str.contains (String c "") x = false) l →
  Str.contains (String c "") (Str.join sep l) = false.
Proof.
  intros Hsep. induction l as [|x l IH]; [done|]. intros H.
  inversion H as [|? ? Hx Hl]; subst.
  destruct l as [|y l]; [done|].
  rewrite join_cons, !contains_char_app, Hx, Hsep. by apply IH.
Qed.

(** *** Trimming *)

Lemma lstrip_head s :
  Str.lstrip s = "" ∨ ∃ c r, Str.lstrip s = String c r ∧ Str.isspace c = false.
Proof.
  induction s as [|c s IH]; [by left|]. simpl.
  destruct (Str.isspace c) eqn:E; [done | right; eauto].
Qed.

Lemma rstrip_cons c r :
  Str.isspace c = false → Str.rstrip (String c r) = String c (Str.rstrip r).
Proof. intros H. simpl. rewrite H. by destruct (Str.rstrip r). Qed.

Lemma rstrip_idem s : Str.rstrip (Str.rstrip s) = Str.rstrip s.
Proof.
  induction s as [|c s IH]; [done|]. simpl.
  destruct (Str.rstrip s) as [|b r] eqn:E.
  - destruct (Str.isspace c) eqn:Ec; [done|]. simpl. by rewrite Ec.
  - simpl in IH |- *. by rewrite IH.
Qed.

(** Trimming twice is trimming once. *)
Lemma strip_idem s : Str.strip (Str.strip s) = Str.strip s.
Proof.
  unfold Str.strip. destruct (lstrip_head s) as [-> | (c & r & -> & Hc)]; [done|].
  rewrite (rstrip_cons _ _ Hc). simpl Str.lstrip. rewrite Hc.
  by rewrite (rstrip_cons _ _ Hc), rstrip_idem.
Qed.

Lemma lstrip_without_char c s :
  Str.contains (String c "") s = false → Str.contains (String c "") (Str.lstrip s) = false.
Proof.
  induction s as [|x s IH]; [done|]. intros H. simpl Str.lstrip.
  destruct (Str.isspace x); [|done].
  rewrite contains_char_cons in H. apply orb_false_iff in H as [_ H]. by apply IH.
Qed.

Lemma rstrip_without_char c s :
  Str.contains (String c "") s = false → Str.contains (String c "") (Str.rstrip s) = false.
Proof.
  induction s as [|x s IH]; [done|]. rewrite contains_char_cons.
  intros H. apply orb_false_iff in H as [Hx H]. specialize (IH H). simpl Str.rstrip.
  destruct (Str.rstrip s) as [|b r].
  - destruct (Str.isspace x); [done|]. by rewrite contains_char_cons, Hx.
  - by rewrite contains_char_cons, Hx.
Qed.

Lemma strip_without_char c s :
  Str.contains (String c "") s = false → Str.contains (String c "") (Str.strip s) = false.
Proof. intros H. by apply rstrip_without_char, lstrip_without_char. Qed.

(** *** Words *)

Lemma split_ws_go_words c s :
  Str.isspace c = true →
  Str.contains (String c "") (Str.split_ws_go s).1 = false
  ∧ Forall (λ w, w ≠ "" ∧ Str.contains (String c "") w = false) (Str.split_ws_go s).2.
Proof.
  intros Hc. induction s as [|x s [IHw IHws]]; [by split|].
  cbn [Str.split_ws_go]. destruct (Str.split_ws_go s) as [w ws]. cbn [fst snd] in *.
  destruct (Str.isspace x) eqn:Ex; cbn [fst snd].
  - split; [done|]. destruct w; [done|]. by constructor.
  - split; [|done]. rewrite contains_char_cons, IHw, orb_false_r.
    apply Ascii.eqb_neq. intros ->. congruence.
Qed.

(** The words of a string are not empty and hold no white space. *)
Lemma split_ws_words c s :
  Str.isspace c = true →
  Forall (λ w, w ≠ "" ∧ Str.contains (String c "") w = false) (Str.split_ws s).
Proof.
  intros Hc. unfold Str.split_ws.
  destruct (split_ws_go_words c s Hc) as [Hw Hws].
  destruct (Str.split_ws_go s) as [w ws]. cbn [fst snd] in *.
  destruct w; [done|]. by constructor.
Qed.

(** ** Authors and emails in a returned mapping *)

Lemma loop_names_list arg kws w st w' x :
  arg = "author" ∨ arg = "author_email" →
  loop kws (LoopState ∅ None) w = (Ok st, w') →
  metadata st !! arg = Some x →
  ∃ s, x = VList (map Str.strip (Str.split "," s)).
Proof.
  intros Harg Hl Hx.
  destruct (last_keyword arg kws) as [v|] eqn:E.
  - destruct (loop_lookup_last _ _ _ _ _ _ _ Hl E) as (value & w0 & w1 & Hc).
    apply (classify_names_inv _ _ _ _ _ _ Harg) in Hc as (s & _ & Hm).
    rewrite Hx in Hm. injection Hm as ->. eauto.
  - rewrite (loop_lookup_other _ _ _ _ _ _ Hl E) in Hx. simpl in Hx.
    by rewrite lookup_empty in Hx.
Qed.

(** X13.  In a mapping that extraction returns, an [author_email] entry
    comes with an [author] entry, both are lists, and every email is
    trimmed and holds no comma. *)
Theorem emails_come_with_authors func args kws w md w' x :
  extract_metadata_from_setup (Call func args kws) w = (Ok md, w') →
  md !! "author_email" = Some x →
  ∃ authors emails,
    x = VList emails
    ∧ md !! "author" = Some (VList authors)
    ∧ Forall (λ e, Str.strip e = e ∧ Str.contains "," e = false) emails.
Proof.
  intros H Hx. unfold extract_metadata_from_setup in H.
  apply bind_inv in H as (st & w1 & Hl & H).
  apply bind_inv in H as (md' & w2 & Hm & H).
  run in H. injection H as <- _.
  rewrite (merge_authors_other _ _ _ _ "author_email" Hm) in Hx; [|done].
  destruct (loop_names_list "author_email" _ _ _ _ _ (or_intror eq_refl) Hl Hx) as [s ->].
  unfold merge_authors in Hm. rewrite Hx in Hm.
  destruct (metadata st !! "author") as [a|] eqn:Ha; [|discriminate].
  destruct (loop_names_list "author" _ _ _ _ _ (or_introl eq_refl) Hl Ha) as [s' ->].
  assert (∃ authors, md' !! "author" = Some (VList authors)) as [authors Hau].
  { run in Hm. simpl in Hm. destruct (negb _); injection Hm as <- _.
    - eexists. exact Ha.
    - eexists. apply lookup_insert_eq. }
  exists authors, (map Str.strip (Str.split "," s)). split; [done|]. split; [done|].
  - apply Forall_map.
    eapply Forall_impl; [apply (split_segments "," s)|].
    intros e He. simpl. split; [apply strip_idem | by apply strip_without_char].
Qed.

Lemma emails_come_with_authors_witness :
  ∃ md w' emails,
    extract_metadata_from_setup (Call (Name "setup") [] setup_mismatch) (World ∅ [])
    = (Ok md, w')
    ∧ md !! "author_email" = Some (VList emails)
    ∧ Forall (λ e, Str.strip e = e ∧ Str.contains "," e = false) emails.
Proof.
  destruct (emails_come_with_authors (Name "setup") [] setup_mismatch (World ∅ [])
              _ _ (VList ["a@x.com"]) eq_refl eq_refl)
    as (authors & emails & He & _ & Hall).
  eexists _, _, emails. split; [reflexivity|]. split; [by rewrite <- He | exact Hall].
Defined.

(** ** String constants on one line *)

(** X14.  The entry of a string constant (a keyword name without a rule of
    its own, the last keyword of that name) has no white space other than
    single spaces: no white-space character but the space occurs in it, and
    splitting it at every space gives the words of the constant, none
    empty. *)
Theorem string_entry_single_spaced func args kws name s w md w' :
  extract_metadata_from_setup (Call func args kws) w = (Ok md, w') →
  named_rule name = false →
  last_keyword name kws = Some (Constant (CStr s)) →
  ∃ text,
    md !! name = Some (VStr text)
    ∧ (∀ c, Str.isspace c = true → c ≠ " "%char → Str.contains (String c "") text = false)
    ∧ (Str.split_ws s = [] → text = "")
    ∧ (Str.split_ws s ≠ [] → Str.split " " text = Str.split_ws s)
    ∧ Forall (λ word, word ≠ "") (Str.split_ws s).
Proof.
  intros H Hn Hk. exists (Str.join " " (Str.split_ws s)).
  split; [by apply (extract_literal_entry _ _ _ _ _ _ _ _ _ H Hn Hk)|].
  split; [|split; [|split]].
  - intros c Hc Hne. apply join_without_char.
    + rewrite contains_char_cons. apply orb_false_iff. split; [|done].
      by apply Ascii.eqb_neq.
    + eapply Forall_impl; [apply (split_ws_words c s Hc)|]. by intros w0 [_ ?].
  - by intros ->.
  - intros Hne. apply (split_join " "); [done|].
    eapply Forall_impl; [apply (split_ws_words " " s eq_refl)|]. by intros w0 [_ ?].
  - eapply Forall_impl; [apply (split_ws_words " " s eq_refl)|]. by intros w0 [? _].
Qed.

Lemma string_entry_single_spaced_witness :
  ∃ md w',
    extract_metadata_from_setup (Call (Name "setup") [] twice_described) (World ∅ [])
    = (Ok md, w')
    ∧ ∃ text, md !! "description" = Some (VStr text)
              ∧ Str.contains NL text = false
              ∧ Str.split " " text = ["A"; "tool"; "for"; "x"].
Proof.
  eexists _, _. split; [reflexivity|].
  destruct (string_entry_single_spaced (Name "setup") [] twice_described "description"
              (" A  tool" ++ NL ++ "for x ") (World ∅ []) _ _ eq_refl eq_refl eq_refl)
    as (text & Ht & Hc & _ & Hs & _).
  exists text. split; [exact Ht|]. split.
  - apply (Hc "010"%char); [reflexivity | discriminate].
  - apply Hs. discriminate.
Defined.

(** ** The dependency block *)

(** X15.  For requirements without line breaks, the dependency block has
    one line per requirement, in order, each the requirement followed by
    [ = "*"]; for no requirement it is empty. *)
Theorem dependency_lines (reqs : list string) :
  Forall (λ req, Str.contains NL req = false) reqs →
  ∃ block,
    generate_dependency_section (VList reqs) = Ok block
    ∧ (reqs = [] → block = "")
    ∧ (reqs ≠ [] →
       Str.split "010" block = map (λ req, req ++ " = " ++ DQ ++ "*" ++ DQ) reqs).
Proof.
  intros H. eexists. split; [reflexivity|]. split; [by intros ->|].
  intros Hne. change NL with (String "010" "") in *. apply split_join.
  - by destruct reqs.
  - apply Forall_map. eapply Forall_impl; [exact H|].
    intros req Hr. simpl. by rewrite contains_char_app, Hr.
Qed.

Lemma dependency_lines_witness :
  ∃ block,
    generate_dependency_section (VList ["requests"; "click"]) = Ok block
    ∧ Str.split "010" block = ["requests = " ++ DQ ++ "*" ++ DQ; "click = " ++ DQ ++ "*" ++ DQ].
Proof.
  destruct (dependency_lines ["requests"; "click"]) as (block & Hb & _ & Hl).
  - by repeat constructor.
  - exists block. split; [exact Hb|]. by apply Hl.
Defined.

(** ** The key of a script *)

Lemma rfind_go_ge c s : ∀ i last, last ≤ i → last ≤ Str.rfind_go c s i last.
Proof.
  induction s as [|x s IH]; intros i last H; simpl; [lia|].
  destruct (Ascii.eqb x c).
  - etransitivity; [|apply IH]; lia.
  - apply IH. lia.
Qed.

Lemma substring_prefix a : ∀ b, String.substring 0 (String.length a) (a ++ b) = a.
Proof.
  induction a as [|x a IH]; intros b; [by destruct b|].
  rewrite append_cons. simpl. by rewrite IH.
Qed.

(** A name without a dot has no extension. *)
Lemma splitext_plain p : Str.contains "." p = false → splitext p = (p, "").
Proof.
  intros H. unfold splitext, Str.rfind at 2. rewrite (rfind_go_absent _ _ _ _ H).
  pose proof (rfind_go_ge "/" p 0 (-1) ltac:(lia)) as Hge. fold (Str.rfind "/" p) in Hge.
  destruct (Str.rfind "/" p <? -1) eqn:E; [lia | done].
Qed.

(** A name made of a stem that does not begin with a dot, a dot, and an
    extension without dots: the stem is what is left. *)
Lemma splitext_stem c stem ext :
  c ≠ "."%char →
  Str.contains "/" (String c stem ++ "." ++ ext) = false →
  Str.contains "." ext = false →
  Str.contains "." stem = false →
  splitext (String c stem ++ "." ++ ext) = (String c stem, "." ++ ext).
Proof.
  intros Hc Hsep Hext Hstem.
  assert (Str.contains "." (String c stem) = false) as Hcs.
  { rewrite contains_char_cons, Hstem, orb_false_r. apply Ascii.eqb_neq. congruence. }
  assert (Str.rfind "/" (String c stem ++ "." ++ ext) = -1) as Hs.
  { unfold Str.rfind. by apply rfind_go_absent. }
  assert (Str.rfind "." (String c stem ++ "." ++ ext)
          = Z.of_nat (String.length (String c stem))) as Hd.
  { unfold Str.rfind. rewrite rfind_go_app, (rfind_go_absent _ _ _ _ Hcs).
    change ("." ++ ext) with (String "." ext). cbn [Str.rfind_go].
    rewrite Ascii.eqb_refl, (rfind_go_absent _ _ _ _ Hext). lia. }
  unfold splitext. rewrite Hs, Hd.
  replace (-1 <? Z.of_nat (String.length (String c stem))) with true
    by (symmetry; apply Z.ltb_lt; lia).
  replace (Z.to_nat (Z.of_nat (String.length (String c stem)) - (-1 + 1)))
    with (S (String.length stem)) by (simpl String.length; lia).
  assert (has_non_dot (String c stem ++ "." ++ ext) (S (String.length stem)) (-1 + 1) = true)
    as ->.
  { cbn [has_non_dot]. unfold Str.at_. rewrite append_cons. simpl.
    destruct (Ascii.eqb_spec c "."); [done|]. by destruct (stem ++ String "." ext). }
  cbn [andb]. unfold Str.upto, Str.from. rewrite Nat2Z.id.
  rewrite substring_prefix, substring_skip, length_append.
  replace (String.length (String c stem) + String.length ("." ++ ext)
           - String.length (String c stem))%nat
    with (String.length ("." ++ ext)) by lia.
  by rewrite substring_all.
Qed.

(** X16.  The key of a script [dir/name] whose name has no slash and no dot
    is the name; with a name [stem.ext], where the stem does not begin with
    a dot and neither part has another dot, the key is the stem.  The value
    is the whole entry, directory and extension included, followed by
    [.__main__:main]. *)
Theorem script_key dir c stem ext :
  c ≠ "."%char → c ≠ "/"%char →
  Str.contains "/" stem = false → Str.contains "." stem = false →
  Str.contains "/" ext = false → Str.contains "." ext = false →
  script_line (dir ++ "/" ++ String c stem)
  = String c stem ++ " = " ++ DQ ++ (dir ++ "/" ++ String c stem) ++ ".__main__:main" ++ DQ
  ∧ script_line (dir ++ "/" ++ String c stem ++ "." ++ ext)
    = String c stem ++ " = " ++ DQ ++ (dir ++ "/" ++ String c stem ++ "." ++ ext)
      ++ ".__main__:main" ++ DQ.
Proof.
  intros Hd Hs Hss Hsd Hes Hed.
  assert (Str.contains "/" (String c stem) = false) as Hcs.
  { rewrite contains_char_cons, Hss, orb_false_r. apply Ascii.eqb_neq. congruence. }
  assert (Str.contains "." (String c stem) = false) as Hcd.
  { rewrite contains_char_cons, Hsd, orb_false_r. apply Ascii.eqb_neq. congruence. }
  assert (Str.contains "/" (String c stem ++ "." ++ ext) = false) as Hall.
  { rewrite !contains_char_app, Hcs, Hes. reflexivity. }
  unfold script_line. split.
  - by rewrite (basename_join _ _ Hcs), (splitext_plain _ Hcd).
  - by rewrite (basename_join _ _ Hall), (splitext_stem _ _ _ Hd Hall Hed Hsd).
Qed.

Lemma script_key_witness :
  script_line "bin/mytool" = "mytool = " ++ DQ ++ "bin/mytool.__main__:main" ++ DQ
  ∧ script_line "bin/mytool.py" = "mytool = " ++ DQ ++ "bin/mytool.py.__main__:main" ++ DQ.
Proof.
  apply (script_key "bin" "m" "ytool" "py"); solve [discriminate | reflexivity].
Defined.

(** ** Lines that the collapse of blank lines keeps *)

Lemma append_nil_l (s : string) : "" ++ s = s.
Proof. reflexivity. Qed.

Lemma NL3_chars : NL ++ NL ++ NL = String "010" (String "010" (String "010" "")).
Proof. reflexivity. Qed.

Lemma startswith_NL3_head c s :
  c ≠ "010"%char → Str.startswith (NL ++ NL ++ NL) (String c s) = false.
Proof.
  intros Hc. rewrite NL3_chars. cbn [Str.startswith].
  destruct (Ascii.eqb_spec "010" c); [congruence | done].
Qed.

Lemma startswith_NL3_app a c x :
  c ≠ "010"%char →
  Str.startswith (NL ++ NL ++ NL) (a ++ String c x) = Str.startswith (NL ++ NL ++ NL) a.
Proof.
  intros Hc. assert (Ascii.eqb "010" c = false) as E by (by apply Ascii.eqb_neq).
  rewrite NL3_chars.
  destruct a as [|a1 [|a2 [|a3 a]]]; rewrite ?append_cons, ?append_nil_l;
    cbn [Str.startswith]; rewrite ?E, ?andb_false_r; done.
Qed.

Lemma NL3_nonempty : NL ++ NL ++ NL ≠ "".
Proof. discriminate. Qed.

(** A text without line breaks passes through the scan as it is. *)
Lemma collapse_line line after :
  Str.contains NL line = false →
  Str.replace_go (NL ++ NL ++ NL) (NL ++ NL) 0 (line ++ after)
  = line ++ Str.replace_go (NL ++ NL ++ NL) (NL ++ NL) 0 after.
Proof.
  induction line as [|c l IH]; [done|]. unfold NL at 1. rewrite contains_char_cons.
  intros H. apply orb_false_iff in H as [Hc Hl]. apply Ascii.eqb_neq in Hc.
  rewrite !append_cons, replace_go_keep by (by apply startswith_NL3_head).
  f_equal. by apply IH.
Qed.

(** The scan of a text followed by a character that is not a line break
    does what it does on the text alone, then goes on. *)
Lemma collapse_before c x before :
  c ≠ "010"%char →
  Str.replace_go (NL ++ NL ++ NL) (NL ++ NL) 0 (before ++ String c x)
  = Str.replace_go (NL ++ NL ++ NL) (NL ++ NL) 0 before
    ++ Str.replace_go (NL ++ NL ++ NL) (NL ++ NL) 0 (String c x).
Proof.
  intros Hc. remember (String.length before) as n eqn:Hn.
  revert before Hn. induction n as [n IH] using lt_wf_ind. intros before Hn.
  destruct before as [|a b]; [done|].
  destruct (Str.startswith (NL ++ NL ++ NL) (String a b)) eqn:Hs.
  - apply startswith_inv in Hs as [rest Hrest].
    rewrite Hrest, (append_assoc _ rest (String c x)).
    rewrite !(replace_go_here _ _ NL3_nonempty).
    rewrite (IH (String.length rest)) with (before := rest); [by rewrite !append_assoc| |done].
    rewrite Hn, Hrest, length_append, NL3_chars. simpl. lia.
  - assert (Str.startswith (NL ++ NL ++ NL) (String a (b ++ String c x)) = false) as Hs'.
    { by rewrite <- append_cons, startswith_NL3_app. }
    rewrite append_cons, (replace_go_keep _ _ _ _ Hs'), (replace_go_keep _ _ _ _ Hs).
    rewrite append_cons. f_equal. apply (IH (String.length b)); [simpl in Hn; lia | done].
Qed.

Lemma replace_go_skip_all old new s : ∀ k,
  (String.length s ≤ k)%nat → Str.replace_go old new k s = "".
Proof.
  induction s as [|c s IH]; intros k H; [done|].
  destruct k as [|k]; simpl in H; [lia|]. simpl. apply IH. lia.
Qed.

(** The scan of a text that ends with a line break gives a text that ends
    with a line break, unless all of it is skipped. *)
Lemma collapse_ends_with_NL s : ∀ k t,
  s = t ++ NL → (k < String.length s)%nat →
  ∃ r, Str.replace_go (NL ++ NL ++ NL) (NL ++ NL) k s = r ++ NL.
Proof.
  induction s as [|c s IH]; intros k t Ht Hk; [simpl in Hk; lia|].
  assert (s = "" ∨ ∃ t', s = t' ++ NL) as Hs.
  { destruct t as [|x t]; [left; by injection Ht | right].
    rewrite append_cons in Ht. injection Ht as _ ->. eauto. }
  destruct k as [|k].
  - cbn [Str.replace_go].
    destruct (Str.startswith (NL ++ NL ++ NL) (String c s)) eqn:E.
    + change (Nat.pred (String.length (NL ++ NL ++ NL))) with 2%nat.
      destruct (decide (2 < String.length s)%nat) as [Hlen|Hlen].
      * destruct Hs as [-> | [t' Ht']]; [simpl in Hlen; lia|].
        destruct (IH 2%nat t' Ht' Hlen) as [r ->].
        exists ((NL ++ NL) ++ r). by rewrite append_assoc.
      * rewrite replace_go_skip_all by (simpl; lia). by exists NL.
    + destruct Hs as [-> | [t' Ht']].
      * exists "". destruct t as [|x [|y t]]; [by injection Ht as -> | |];
          rewrite ?append_cons in Ht; injection Ht as _ Ht; [discriminate|].
        by destruct t.
      * destruct (IH 0%nat t' Ht') as [r ->]; [rewrite Ht', length_append; simpl; lia|].
        by exists (String c r).
  - cbn [Str.replace_go]. simpl in Hk.
    destruct Hs as [-> | [t' Ht']]; [simpl in Hk; lia|].
    apply (IH k t' Ht'). lia.
Qed.

Lemma collapse_starts_with_NL a :
  ∃ r, Str.replace_go (NL ++ NL ++ NL) (NL ++ NL) 0 (NL ++ a) = NL ++ r.
Proof.
  change (NL ++ a) with (String "010" a). cbn [Str.replace_go].
  destruct (Str.startswith _ _); eexists; reflexivity.
Qed.

Lemma collapse_keeps_line line t :
  line ≠ "" → Str.contains NL line = false →
  is_line_of line t →
  is_line_of line (Str.replace (NL ++ NL ++ NL) (NL ++ NL) t).
Proof.
  intros Hne Hnl (before & after & -> & Hb & Ha).
  rewrite (replace_nonempty _ _ NL3_nonempty).
  destruct line as [|c l]; [done|].
  assert (c ≠ "010"%char) as Hc.
  { unfold NL in Hnl. rewrite contains_char_cons in Hnl.
    apply orb_false_iff in Hnl as [Hnl _]. by apply Ascii.eqb_neq in Hnl. }
  rewrite append_cons, (collapse_before _ _ _ Hc), <- append_cons, (collapse_line _ _ Hnl).
  eexists _, _. split; [reflexivity|]. split.
  - destruct Hb as [-> | [b ->]]; [by left | right].
    apply (collapse_ends_with_NL _ 0%nat b eq_refl).
    rewrite length_append. simpl. lia.
  - destruct Ha as [-> | [a ->]]; [by left | right].
    apply collapse_starts_with_NL.
Qed.

(** X17.  Collapsing the blank lines keeps the lines: every line of the
    filled template that is not empty (and has no line break inside) is a
    line of the rendered text. *)
Theorem rendering_keeps_lines md t line :
  fill_template md = Ok t →
  line ≠ "" → Str.contains NL line = false →
  is_line_of line t →
  ∃ doc, generate_pyproject_toml md = Ok doc ∧ is_line_of line doc.
Proof.
  intros Ht Hne Hnl Hline. unfold generate_pyproject_toml. rewrite Ht.
  eexists. split; [reflexivity|]. by apply collapse_keeps_line.
Qed.

Lemma rendering_keeps_lines_witness :
  ∃ doc, generate_pyproject_toml ∅ = Ok doc ∧ is_line_of "[tool.poetry]" doc.
Proof.
  destruct (fill_template ∅) as [t|] eqn:Ht; [|by vm_compute in Ht].
  apply (rendering_keeps_lines ∅ t "[tool.poetry]" Ht); [discriminate | reflexivity|].
  vm_compute in Ht. injection Ht as <-.
  exists "". eexists. split; [reflexivity|]. split; [by left|].
  right. eexists. reflexivity.
Defined.

(** ** The lines of the scalar fields *)

Lemma concat_app (l1 l2 : list string) :
  String.concat "" (l1 ++ l2) = String.concat "" l1 ++ String.concat "" l2.
Proof.
  induction l1 as [|x l1 IH]; [done|].
  destruct l1 as [|y l1].
  - destruct l2 as [|z l2]; [by rewrite append_nil_r | done].
  - change (String.concat "" ((x :: y :: l1) ++ l2))
      with (x ++ String.concat "" ((y :: l1) ++ l2)).
    rewrite IH. change (String.concat "" (x :: y :: l1)) with (x ++ String.concat "" (y :: l1)).
    by rewrite append_assoc.
Qed.

(** The items [k] to [k + n - 1] of a list of texts make a line of their
    concatenation when the item before them, if any, and the item after
    them, if any, are line breaks. *)
Lemma template_line_at (L : list string) (k n : nat) :
  (k = 0%nat ∨ L !! Nat.pred k = Some NL) →
  (L !! (k + n)%nat = Some NL ∨ (length L ≤ k + n)%nat) →
  is_line_of (String.concat "" (take n (drop k L))) (String.concat "" L).
Proof.
  intros Hb Ha.
  exists (String.concat "" (take k L)), (String.concat "" (drop n (drop k L))).
  split; [|split].
  - by rewrite <- !concat_app, take_drop, take_drop.
  - destruct k as [|j]; [by left | right].
    destruct Hb as [Hb | Hb]; [discriminate|].
    simpl in Hb. rewrite (take_S_r _ _ _ Hb), concat_app. eauto.
  - rewrite drop_drop. destruct Ha as [Ha | Ha]; [right | left; by rewrite drop_ge].
    rewrite (drop_S _ _ _ Ha).
    change (NL :: ?r) with ([NL] ++ r)%list. rewrite concat_app. eauto.
Qed.

Lemma template_scalar_lines md doc key label default :
  generate_pyproject_toml md = Ok doc →
  In (key, label, default)
     [("name", "name", ""); ("version", "version", "");
      ("description", "description", ""); ("license", "license", "");
      ("url", "repository", ""); ("python_requires", "python", ">=3.5")] →
  Str.contains NL (py_str (get md key (VStr default))) = false →
  is_line_of (label ++ " = " ++ DQ ++ py_str (get md key (VStr default)) ++ DQ) doc.
Proof.
  intros H Hin Hnl. unfold generate_pyproject_toml in H.
  destruct (fill_template md) as [t|] eqn:Ht; [|discriminate].
  injection H as <-. apply collapse_keeps_line.
  - destruct Hin as [[= <- <- <-]|[[= <- <- <-]|[[= <- <- <-]|[[= <- <- <-]|
      [[= <- <- <-]|[[= <- <- <-]|[]]]]]]]; discriminate.
  - unfold NL in Hnl |- *. rewrite !contains_char_app, Hnl.
    destruct Hin as [[= <- <- <-]|[[= <- <- <-]|[[= <- <- <-]|[[= <- <- <-]|
      [[= <- <- <-]|[[= <- <- <-]|[]]]]]]]; reflexivity.
  - unfold fill_template in Ht.
    destruct (render_classifiers md) as [classifiers|]; [|discriminate].
    destruct (generate_dependency_section _) as [dependencies|]; [|discriminate].
    destruct (scripts_section _) as [scripts|]; [|discriminate].
    unfold mbind, result_bind in Ht.
    match type of Ht with Ok (String.concat _ ?L) = _ => set (tpl := L) in Ht end.
    injection Ht as <-.
    destruct Hin as [[= <- <- <-]|[[= <- <- <-]|[[= <- <- <-]|[[= <- <- <-]|
      [[= <- <- <-]|[[= <- <- <-]|[]]]]]]].
    + apply (template_line_at tpl 2 4); [right|left]; reflexivity.
    + apply (template_line_at tpl 7 4); [right|left]; reflexivity.
    + apply (template_line_at tpl 12 4); [right|left]; reflexivity.
    + apply (template_line_at tpl 17 4); [right|left]; reflexivity.
    + apply (template_line_at tpl 30 4); [right|left]; reflexivity.
    + apply (template_line_at tpl 44 4); [right|left]; reflexivity.
Qed.


(** X18.  Each of the six quoted scalar fields has its line in the rendered
    text: the label, [ = ], and between double quotes the text of the
    mapping's entry, or of the default when the mapping has none (empty,
    and ">=3.5" for the python constraint), provided that text has no line
    break. *)
Theorem scalar_field_lines md doc key label default :
  generate_pyproject_toml md = Ok doc →
  In (key, label, default)
     [("name", "name", ""); ("version", "version", "");
      ("description", "description", ""); ("license", "license", "");
      ("url", "repository", ""); ("python_requires", "python", ">=3.5")] →
  Str.contains NL (py_str (get md key (VStr default))) = false →
  is_line_of (label ++ " = " ++ DQ ++ py_str (get md key (VStr default)) ++ DQ) doc.
Proof. apply template_scalar_lines. Qed.

Lemma scalar_field_lines_witness :
  ∃ doc,
    generate_pyproject_toml {[ "name" := VStr "x" ]} = Ok doc
    ∧ is_line_of ("name = " ++ DQ ++ "x" ++ DQ) doc
    ∧ is_line_of ("python = " ++ DQ ++ ">=3.5" ++ DQ) doc.
Proof.
  destruct (generate_pyproject_toml {[ "name" := VStr "x" ]}) as [doc|] eqn:Hd;
    [|by vm_compute in Hd].
  exists doc. split; [done|]. split.
  - apply (scalar_field_lines {[ "name" := VStr "x" ]} doc "name" "name" "" Hd).
    + left. reflexivity.
    + reflexivity.
  - apply (scalar_field_lines {[ "name" := VStr "x" ]} doc "python_requires" "python" ">=3.5" Hd).
    + do 5 right. left. reflexivity.
    + reflexivity.
Defined.

(** ** The entry of [keywords] for a string *)

Lemma split_one_segment sep s :
  length (Str.split sep s) = 1%nat → Str.contains (String sep "") s = false.
Proof.
  induction s as [|c s IH]; [done|]. simpl Str.split.
  destruct (Ascii.eqb c sep) eqn:E.
  - pose proof (split_nonempty sep s). destruct (Str.split sep s); [done | discriminate].
  - destruct (Str.split sep s) as [|w ws] eqn:Es; [by destruct (split_nonempty sep s)|].
    destruct ws; [|discriminate]. intros _.
    by rewrite contains_char_cons, Ascii.eqb_sym, E, IH.
Qed.

(** A text without white space is its own trimming. *)
Lemma strip_word w :
  (∀ c, Str.isspace c = true → Str.contains (String c "") w = false) → Str.strip w = w.
Proof.
  intros H. unfold Str.strip.
  assert (Str.lstrip w = w) as ->.
  { destruct w as [|x w]; [done|]. simpl.
    destruct (Str.isspace x) eqn:E; [|done].
    specialize (H x E). by rewrite contains_char_cons, Ascii.eqb_refl in H. }
  induction w as [|x w IH]; [done|].
  assert (Str.isspace x = false) as Hx.
  { destruct (Str.isspace x) eqn:E; [|done].
    specialize (H x E). by rewrite contains_char_cons, Ascii.eqb_refl in H. }
  rewrite (rstrip_cons _ _ Hx), IH; [done|].
  intros c Hc. specialize (H c Hc). rewrite contains_char_cons in H.
  by apply orb_false_iff in H as [_ H].
Qed.

Lemma split_ws_stripped s : map Str.strip (Str.split_ws s) = Str.split_ws s.
Proof.
  rewrite <- (map_id (Str.split_ws s)) at 2. apply map_ext_in.
  intros w Hw. apply strip_word. intros c Hc.
  pose proof (split_ws_words c s Hc) as Hall. rewrite Forall_forall in Hall.
  apply list_elem_of_In in Hw. by destruct (Hall w Hw).
Qed.

Lemma keywords_of_commas s :
  Str.contains "," s = true → keywords_of s = map Str.strip (Str.split "," s).
Proof.
  intros H. unfold keywords_of.
  destruct (length (Str.split "," s) =? 1)%nat eqn:E.
  - apply Nat.eqb_eq, split_one_segment in E. congruence.
  - rewrite map_map. apply map_ext. intros x. apply strip_idem.
Qed.

Lemma keywords_of_words s :
  Str.contains "," s = false → keywords_of s = Str.split_ws s.
Proof.
  intros H. unfold keywords_of. rewrite (split_without_sep _ _ H). simpl.
  by rewrite !split_ws_stripped.
Qed.

(** X19.  The entry of [keywords] for a string (the last keyword of that
    name): with a comma in the string, its trimmed comma-separated
    segments; without a comma, its words. *)
Theorem keywords_entry func args kws s w md w' :
  extract_metadata_from_setup (Call func args kws) w = (Ok md, w') →
  last_keyword "keywords" kws = Some (Constant (CStr s)) →
  (Str.contains "," s = true →
   md !! "keywords" = Some (VList (map Str.strip (Str.split "," s))))
  ∧ (Str.contains "," s = false → md !! "keywords" = Some (VList (Str.split_ws s))).
Proof.
  intros H Hk. unfold extract_metadata_from_setup in H.
  apply bind_inv in H as (st & w1 & Hl & H).
  apply bind_inv in H as (md' & w2 & Hm & H).
  run in H. injection H as <- _.
  rewrite (merge_authors_other _ _ _ _ "keywords" Hm); [|done].
  destruct (loop_lookup_last _ _ _ _ _ _ _ Hl Hk) as (value & w0 & w3 & Hc).
  rewrite classify_keywords_str in Hc. injection Hc as <- _.
  split; intros Hs; [by rewrite keywords_of_commas | by rewrite keywords_of_words].
Qed.

Lemma keywords_entry_witness :
  ∃ md w',
    extract_metadata_from_setup
      (Call (Name "setup") [] [keyword (Some "keywords") (Constant (CStr "cli  tool, toml "))])
      (World ∅ []) = (Ok md, w')
    ∧ md !! "keywords" = Some (VList ["cli  tool"; "toml"]).
Proof.
  eexists _, _. split; [reflexivity|].
  eapply (keywords_entry (Name "setup") []
            [keyword (Some "keywords") (Constant (CStr "cli  tool, toml "))]
            "cli  tool, toml " (World ∅ [])); reflexivity.
Defined.

(** ** The lines of the classifiers *)

Lemma Ok_inj {A} (a b : A) : Ok a = Ok b → a = b.
Proof. by intros [= ->]. Qed.

Lemma line_inside line inner X Y :
  (∃ b a, inner = (b ++ NL) ++ line ++ (NL ++ a)) →
  is_line_of line (X ++ inner ++ Y).
Proof.
  intros (b & a & ->). exists (X ++ b ++ NL), (NL ++ a ++ Y).
  split; [by rewrite !append_assoc|]. split; right.
  - exists (X ++ b). by rewrite append_assoc.
  - eauto.
Qed.

(** X20.  A non-empty list of classifiers is rendered one per line: each
    classifier without a line break has, in the rendered text, the line
    made of four spaces, the classifier between double quotes, and a
    comma. *)
Theorem classifier_lines md (l pre : list string) cls (post : list string) doc :
  md !! "classifiers" = Some (VList l) →
  l = (pre ++ cls :: post)%list →
  Str.contains NL cls = false →
  generate_pyproject_toml md = Ok doc →
  is_line_of ("    " ++ DQ ++ cls ++ DQ ++ ",") doc.
Proof.
  intros Hc -> Hnl H. unfold generate_pyproject_toml in H.
  destruct (fill_template md) as [t|] eqn:Ht; [|discriminate].
  injection H as <-. apply collapse_keeps_line; [discriminate| |].
  { unfold NL in Hnl |- *. by rewrite !contains_char_app, Hnl. }
  unfold fill_template, render_classifiers, get in Ht. rewrite Hc in Ht.
  assert (truthy (VList (pre ++ cls :: post)) = true) as Htr by (by destruct pre).
  rewrite Htr in Ht. cbn [py_iter] in Ht. unfold mbind at 1 2, result_bind in Ht.
  destruct (generate_dependency_section _) as [dependencies|]; [|discriminate].
  destruct (scripts_section _) as [scripts|]; [|discriminate].
  unfold mbind, result_bind in Ht.
  match type of Ht with
  | Ok (String.concat _ ?L) = _ =>
      pose proof (take_drop_middle L 39%nat _ eq_refl) as Hmid;
      rewrite <- Hmid in Ht
  end.
  apply Ok_inj in Ht as <-.
  match goal with
  | |- context [(?x :: drop 40%nat ?L)%list] =>
      change (x :: drop 40%nat L)%list with ([x] ++ drop 40%nat L)%list
  end.
  rewrite !concat_app. apply line_inside.
  destruct (join_is_line (λ cls, "    " ++ DQ ++ cls ++ DQ ++ ",") pre cls post)
    as (b0 & a0 & -> & Hb & Ha).
  change (String.concat "" [?x]) with x.
  assert (∃ b, "[" ++ NL ++ b0 = b ++ NL) as [b Hb'].
  { destruct Hb as [-> | [b ->]]; [by exists "["|].
    exists ("[" ++ NL ++ b). by rewrite !append_assoc. }
  assert (∃ a, a0 ++ NL ++ "]" = NL ++ a) as [a Ha'].
  { destruct Ha as [-> | [a ->]]; [by exists "]"|].
    exists (a ++ NL ++ "]"). by rewrite !append_assoc. }
  exists b, a. rewrite <- Hb', <- Ha'. by rewrite !append_assoc.
Qed.

Lemma classifier_lines_witness :
  ∃ doc,
    generate_pyproject_toml {[ "classifiers" := VList ["Topic :: A"; "Topic :: B"] ]} = Ok doc
    ∧ is_line_of ("    " ++ DQ ++ "Topic :: B" ++ DQ ++ ",") doc.
Proof.
  destruct (generate_pyproject_toml {[ "classifiers" := VList ["Topic :: A"; "Topic :: B"] ]})
    as [doc|] eqn:Hd; [|by vm_compute in Hd].
  exists doc. split; [done|].
  apply (classifier_lines {[ "classifiers" := VList ["Topic :: A"; "Topic :: B"] ]}
           ["Topic :: A"; "Topic :: B"] ["Topic :: A"] "Topic :: B" [] doc);
    [reflexivity | reflexivity | reflexivity | exact Hd].
Defined.

(** ** The events of a run *)




(** ** From the source to the manifest *)

Lemma collapsed_one_line s : Str.contains NL (Str.join " " (Str.split_ws s)) = false.
Proof.
  apply join_without_char; [reflexivity|].
  eapply Forall_impl; [apply (split_ws_words "010" s eq_refl)|]. by intros w0 [_ ?].
Qed.

(** X22.  From the source to the manifest.  When the source is read and
    parsed, the search returns a call, and [main] returns, the destination
    holds a text in which each of the six quoted scalar fields given as a
    string constant (by the last keyword of its name) has its line: the
    label, [ = ], and between double quotes the constant with its white
    space collapsed. *)
Theorem constant_reaches_manifest
    ast_parse prog src dst text tree func args kws key label default s w :
  files w !! src = Some text →
  ast_parse text = Ok tree →
  find_setup_function tree = Ok (Some (Call func args kws)) →
  In (key, label, default)
     [("name", "name", ""); ("version", "version", "");
      ("description", "description", ""); ("license", "license", "");
      ("url", "repository", ""); ("python_requires", "python", ">=3.5")] →
  last_keyword key kws = Some (Constant (CStr s)) →
  (main ast_parse [prog; src; dst] w).1 = Ok tt →
  ∃ doc,
    files (main ast_parse [prog; src; dst] w).2 !! dst = Some doc
    ∧ is_line_of (label ++ " = " ++ DQ ++ Str.join " " (Str.split_ws s) ++ DQ) doc.
Proof.
  intros Hf Hp Hfind Hin Hk Hmain.
  assert (named_rule key = false) as Hn.
  { destruct Hin as [[= <- <- <-]|[[= <- <- <-]|[[= <- <- <-]|[[= <- <- <-]|
      [[= <- <- <-]|[[= <- <- <-]|[]]]]]]]; reflexivity. }
  unfold main, parse_setup_py, read_file in *. run in Hmain. run.
  rewrite Hf, Hp, Hfind in *.
  destruct (extract_metadata_from_setup _ _) as [[md|e] w1] eqn:He; [|discriminate].
  destruct (generate_pyproject_toml md) as [doc|e] eqn:Hg; [|discriminate].
  exists doc. simpl. split; [apply lookup_insert_eq|].
  pose proof (extract_literal_entry _ _ _ _ _ _ _ _ _ He Hn Hk eq_refl) as Hmd.
  assert (get md key (VStr default) = VStr (Str.join " " (Str.split_ws s))) as Hget.
  { unfold get. by rewrite Hmd. }
  pose proof (template_scalar_lines md doc key label default Hg Hin) as Hline.
  rewrite Hget in Hline. apply Hline. apply collapsed_one_line.
Qed.

Lemma constant_reaches_manifest_witness :
  ∃ doc,
    files (main (λ _, Ok setup_module) ["py2toml.py"; "setup.py"; "pyproject.toml"] one_file).2
      !! "pyproject.toml" = Some doc
    ∧ is_line_of ("name = " ++ DQ ++ "x" ++ DQ) doc.
Proof.
  apply (constant_reaches_manifest (λ _, Ok setup_module) "py2toml.py" "setup.py"
           "pyproject.toml" "" setup_module (Attribute (Name "setuptools") "setup") []
           [keyword (Some "name") (Constant (CStr "x"))] "name" "name" "" "x" one_file).
  - reflexivity.
  - reflexivity.
  - reflexivity.
  - left. reflexivity.
  - reflexivity.
  - reflexivity.
Defined.
